(** * Fire Emblem data scraper: the characters spider

    A shallow embedding of
    [fire_emblem_data_scraper/spiders/characters/characters.py]
    (class [CharactersSpider]) and of the parts of its collaborators
    that the spider relies on: the parsed HTML document, the XPath 1.0
    fragment the spider's queries are written in, the selector methods
    [get] and [getall], [OrderedDict.fromkeys], [list.remove] and
    BeautifulSoup's [get_text]. *)

From Stdlib Require Import String Ascii List Bool Arith Lia.
Import ListNotations.
Set Warnings "-register-all".
Open Scope string_scope.
Open Scope list_scope.

(** ** Python strings *)

Module Str.

(** [needle in hay], which is also XPath's [contains(hay, needle)]. *)
Fixpoint contains (hay needle : string) : bool :=
  String.prefix needle hay
  || match hay with
     | EmptyString => false
     | String _ rest => contains rest needle
     end.

(** Truthiness of a Python [str]. *)
Definition nonempty (s : string) : bool :=
  match s with EmptyString => false | String _ _ => true end.

Definition lower_ascii (c : ascii) : ascii :=
  let n := nat_of_ascii c in
  if Nat.leb 65 n && Nat.leb n 90 then ascii_of_nat (n + 32) else c.

(** [str.lower()], on the ASCII letters; every other character is kept. *)
Fixpoint lower (s : string) : string :=
  match s with
  | EmptyString => EmptyString
  | String c rest => String (lower_ascii c) (lower rest)
  end.

(** The delimiter of the string literals in the spider's XPath texts. *)
Definition dquote : ascii := ascii_of_nat 34.

Fixpoint has_char (c : ascii) (s : string) : bool :=
  match s with
  | EmptyString => false
  | String d rest => Ascii.eqb c d || has_char c rest
  end.

(** [''.join(parts)]. *)
Definition join (parts : list string) : string :=
  fold_right String.append EmptyString parts.

End Str.

(** ** The parsed document *)

Module Dom.

(** An HTML tree as the selector sees it: text nodes and elements with
    their attributes (in source order) and children. *)
Inductive node : Type :=
| Text (s : string)
| Elem (tag : string) (attrs : list (string * string)) (kids : list node).

(** A document is its root element. *)
Definition document : Type := node.

Fixpoint assoc (a : string) (l : list (string * string)) : option string :=
  match l with
  | [] => None
  | (k, v) :: rest => if String.eqb k a then Some v else assoc a rest
  end.

(** The value of attribute [a] of a node; text nodes have none. *)
Definition attr (a : string) (n : node) : option string :=
  match n with
  | Text _ => None
  | Elem _ attrs _ => assoc a attrs
  end.

Definition children (n : node) : list node :=
  match n with
  | Text _ => []
  | Elem _ _ kids => kids
  end.

(** The text nodes below (or at) a node, in document order. *)
Fixpoint strings (n : node) : list string :=
  match n with
  | Text s => [s]
  | Elem _ _ kids =>
      (fix go (ks : list node) : list string :=
         match ks with
         | [] => []
         | k :: ks' => strings k ++ go ks'
         end) kids
  end.

(** A node together with the siblings that follow it. *)
Definition frame : Type := (node * list node)%type.

(** A position in the document: the node's own frame first, then the
    frames of its parent, grandparent, ... up to the root element. *)
Definition loc : Type := list frame.

Fixpoint sib_frames (ns : list node) : list frame :=
  match ns with
  | [] => []
  | n :: rest => (n, rest) :: sib_frames rest
  end.

(** All positions at or below [n], in document order (a node before its
    children, children left to right). *)
Fixpoint locs_from (up : list frame) (n : node) (after : list node)
  {struct n} : list loc :=
  let me := (n, after) :: up in
  me :: match n with
        | Text _ => []
        | Elem _ _ kids =>
            (fix go (ks : list node) : list loc :=
               match ks with
               | [] => []
               | k :: ks' => locs_from me k ks' ++ go ks'
               end) kids
        end.

Definition locs (doc : document) : list loc := locs_from [] doc [].

(** The positions below a node, given its own position and its children. *)
Fixpoint locs_kids (me : loc) (ks : list node) : list loc :=
  match ks with
  | [] => []
  | k :: ks' => locs_from me k ks' ++ locs_kids me ks'
  end.

(** The node a position points at. *)
Definition here (l : loc) : option node :=
  match l with
  | [] => None
  | (n, _) :: _ => Some n
  end.

End Dom.

(** ** The XPath 1.0 fragment of the spider's queries *)

Module XPath.
Import Dom.

Inductive test : Type :=
| Tag (t : string)        (* a name test, e.g. [div] *)
| TextNode.               (* [text()] *)

(** Axes of the steps of a location path that starts at the document
    root: [/] is [child], [//] abbreviates
    [/descendant-or-self::node()/]. *)
Inductive axis : Type := Child | Descendant.

(** Axes of the relative paths inside predicates. *)
Inductive raxis : Type := RChild | RFollowingSibling.

(** Expressions converted to a string by [contains]. *)
Inductive sexp : Type :=
| FirstText               (* [text()]: string value of the first text child *)
| AttrVal (a : string)    (* [@a] *)
| Self.                   (* [.] *)

Inductive pred : Type :=
| PTrue
| PAttrEq (a v : string)              (* [@a="v"] *)
| PAnd (p q : pred)
| POr (p q : pred)
| PContains (e : sexp) (lit : string) (* [contains(e, "lit")] *)
| PPath (r : rpath)                   (* a relative path: true when it selects a node *)
with rpath : Type :=
| RNil
| RStep (ax : raxis) (t : test) (p : pred) (r : rpath).

Record step : Type := Step { step_axis : axis; step_test : test; step_pred : pred }.

(** A location path from the document root, outermost step first. *)
Definition path : Type := list step.

Definition node_test (t : test) (n : node) : bool :=
  match t, n with
  | Tag name, Elem tag _ _ => String.eqb tag name
  | TextNode, Text _ => true
  | _, _ => false
  end.

(** The string value of a node: its text, or the concatenated text below it. *)
Definition string_value (n : node) : string := Str.join (strings n).

Fixpoint first_text (ns : list node) : string :=
  match ns with
  | [] => EmptyString
  | Text s :: _ => s
  | Elem _ _ _ :: rest => first_text rest
  end.

(** Conversion of a node-set to a string takes its first node; the empty
    node-set gives the empty string. *)
Definition eval_sexp (e : sexp) (n : node) : string :=
  match e with
  | FirstText => first_text (children n)
  | AttrVal a => match attr a n with Some v => v | None => EmptyString end
  | Self => string_value n
  end.

Definition axis_frames (ax : raxis) (f : frame) : list frame :=
  match ax with
  | RChild => sib_frames (children (fst f))
  | RFollowingSibling => sib_frames (snd f)
  end.

Fixpoint holds (p : pred) (f : frame) {struct p} : bool :=
  match p with
  | PTrue => true
  | PAttrEq a v =>
      match attr a (fst f) with
      | Some v' => String.eqb v' v
      | None => false
      end
  | PAnd p1 p2 => holds p1 f && holds p2 f
  | POr p1 p2 => holds p1 f || holds p2 f
  | PContains e lit => Str.contains (eval_sexp e (fst f)) lit
  | PPath r => reach r f
  end
with reach (r : rpath) (f : frame) {struct r} : bool :=
  match r with
  | RNil => true
  | RStep ax t p r' =>
      existsb (fun g => node_test t (fst g) && holds p g && reach r' g)
              (axis_frames ax f)
  end.

Definition step_holds (s : step) (f : frame) : bool :=
  node_test (step_test s) (fst f) && holds (step_pred s) f.

(** [any_suffix P l]: [P] holds of [l] or of one of its proper suffixes. *)
Fixpoint any_suffix (P : loc -> bool) (l : loc) : bool :=
  P l || match l with
         | [] => false
         | _ :: rest => any_suffix P rest
         end.

(** [sel rs l]: position [l] is selected by the path whose steps,
    innermost first, are [rs].  The node itself must pass the innermost
    step; the rest of the path must select its parent ([/]) or one of its
    ancestors or the document root ([//]).  The empty path selects the
    document root only, the position above the root element. *)
Fixpoint sel (rs : list step) (l : loc) {struct rs} : bool :=
  match rs with
  | [] => match l with [] => true | _ :: _ => false end
  | s :: rest =>
      match l with
      | [] => false
      | f :: up =>
          step_holds s f
          && match step_axis s with
             | Child => sel rest up
             | Descendant => any_suffix (sel rest) up
             end
      end
  end.

(** The positions a path selects, in document order and without repeats. *)
Definition select (p : path) (doc : document) : list loc :=
  filter (sel (rev p)) (locs doc).

Definition nodes_of (ls : list loc) : list node :=
  flat_map (fun l => match here l with Some n => [n] | None => [] end) ls.

(** [response.xpath('<p>').getall()] for a path selecting elements: one
    serialised element per selected node (kept as the element). *)
Definition getall_nodes (p : path) (doc : document) : list node :=
  nodes_of (select p doc).

(** [response.xpath('<p>/@a').getall()]. *)
Definition getall_attr (p : path) (a : string) (doc : document) : list string :=
  flat_map (fun n => match attr a n with Some v => [v] | None => [] end)
           (getall_nodes p doc).

(** [response.xpath('<p>').getall()] for a path that ends in [text()]. *)
Definition getall_text (p : path) (doc : document) : list string :=
  flat_map (fun n => match n with Text s => [s] | Elem _ _ _ => [] end)
           (getall_nodes p doc).

(** [.get()]: the first result, or [None]. *)
Definition get (results : list string) : option string :=
  match results with
  | [] => None
  | r :: _ => Some r
  end.

End XPath.

(** ** Python containers used by the spider *)

Module Py.

(** Truthiness of a value that is a [str] or [None]. *)
Definition truthy (o : option string) : bool :=
  match o with
  | Some s => Str.nonempty s
  | None => false
  end.

(** Truthiness of a list. *)
Definition nonempty {A : Type} (l : list A) : bool :=
  match l with [] => false | _ :: _ => true end.

(** [a or b] on lists. *)
Definition or_else {A : Type} (a b : list A) : list A :=
  if nonempty a then a else b.

(** An insertion-ordered dictionary with string keys. *)
Definition ordered_dict (V : Type) : Type := list (string * V).

(** [d[k] = v]: an existing key keeps its place, a new key goes last. *)
Fixpoint setitem {V : Type} (k : string) (v : V) (d : ordered_dict V)
  : ordered_dict V :=
  match d with
  | [] => [(k, v)]
  | (k', v') :: rest =>
      if String.eqb k' k then (k', v) :: rest else (k', v') :: setitem k v rest
  end.

(** [OrderedDict.fromkeys(ks)]: every key mapped to [None]. *)
Definition fromkeys (ks : list string) : ordered_dict unit :=
  fold_left (fun d k => setitem k tt d) ks [].

(** [list(d)]: the keys in insertion order. *)
Definition keys {V : Type} (d : ordered_dict V) : list string := map fst d.

(** [l.remove(x)]: drops the first occurrence of [x]; [None] stands for
    the [ValueError] raised when [x] is not in [l]. *)
Fixpoint remove (x : string) (l : list string) : option (list string) :=
  match l with
  | [] => None
  | y :: rest =>
      if String.eqb y x then Some rest
      else match remove x rest with
           | Some rest' => Some (y :: rest')
           | None => None
           end
  end.

End Py.

(** ** BeautifulSoup *)

Module BeautifulSoup.
Import Dom.

(** The tags whose text the HTML tree builders keep in a string class of
    its own ([Script], [Stylesheet], [TemplateString], [RubyTextString],
    [RubyParenthesisString]) and not in [NavigableString]: the builder's
    [DEFAULT_STRING_CONTAINERS] (Beautiful Soup 4.10 and later). *)
Definition string_container (tag : string) : bool :=
  String.eqb tag "script" || String.eqb tag "style" || String.eqb tag "template"
  || String.eqb tag "rt" || String.eqb tag "rp".

(** [_all_strings()] of the parsed fragment: the strings of class
    [NavigableString] in document order, which are the text nodes that do
    not lie inside a string container. *)
Fixpoint all_strings (n : node) : list string :=
  match n with
  | Text s => [s]
  | Elem tag _ kids =>
      if string_container tag then []
      else (fix go (ks : list node) : list string :=
              match ks with
              | [] => []
              | k :: ks' => all_strings k ++ go ks'
              end) kids
  end.

(** [BeautifulSoup(html, 'html.parser').get_text()] on the serialisation
    of an element (kept as the element): its strings, joined. *)
Definition get_text (html : node) : string := Str.join (all_strings html).

End BeautifulSoup.

(** ** Exceptions and the call log *)

Module Run.

Inductive value_error : Type :=
| InvalidXPath        (* raised by [response.xpath] on a text that is no XPath *)
| NotInList.          (* raised by [list.remove] *)

Inductive exn : Type :=
| KeyError (key : string)
| ValueError (why : value_error).

Inductive outcome (A : Type) : Type :=
| Return (a : A)
| Raise (e : exn).
Arguments Return {A} a.
Arguments Raise {A} e.

(** The private methods of the spider, as entries of a call log. *)
Inductive call : Type :=
| Call_parse_name
| Call_parse_images
| Call_parse_appearances
| Call_parse_titles
| Call_parse_voice_actors.

(** A computation that may raise and that appends to the log of the
    methods invoked so far. *)
Definition M (A : Type) : Type := list call -> outcome A * list call.

Definition ret {A : Type} (a : A) : M A := fun log => (Return a, log).

Definition raise {A : Type} (e : exn) : M A := fun log => (Raise e, log).

Definition bind {A B : Type} (m : M A) (k : A -> M B) : M B :=
  fun log =>
    match m log with
    | (Return a, log') => k a log'
    | (Raise e, log') => (Raise e, log')
    end.

(** Calling method [c] with body [m]: the call is logged, then the body runs. *)
Definition invoke {A : Type} (c : call) (m : M A) : M A :=
  fun log => m (log ++ [c]).

Definition lift {A : Type} (o : outcome A) : M A := fun log => (o, log).

Definition run {A : Type} (m : M A) : outcome A * list call := m [].

End Run.

Declare Scope run_scope.
Delimit Scope run_scope with run.
Notation "x <- m ;; k" := (Run.bind m (fun x => k))
  (at level 61, m at next level, right associativity) : run_scope.

(** ** The scraped item *)

Module Item.

(** [CharacterItem]: a [scrapy.Item] with six declared fields; a field is
    either set or absent.  [voiceActors] is a [dict] from language key to
    names, kept in insertion order. *)
Record CharacterItem : Type := Build {
  name : option string;
  primaryImage : option string;
  otherImages : option (list string);
  titles : option (list string);
  appearances : option (list string);
  voiceActors : option (list (string * list string))
}.

(** [CharacterItem()]. *)
Definition empty : CharacterItem := Build None None None None None None.

Definition set_name (v : string) (i : CharacterItem) : CharacterItem :=
  Build (Some v) (primaryImage i) (otherImages i) (titles i) (appearances i) (voiceActors i).

Definition set_primaryImage (v : string) (i : CharacterItem) : CharacterItem :=
  Build (name i) (Some v) (otherImages i) (titles i) (appearances i) (voiceActors i).

Definition set_otherImages (v : list string) (i : CharacterItem) : CharacterItem :=
  Build (name i) (primaryImage i) (Some v) (titles i) (appearances i) (voiceActors i).

Definition set_titles (v : list string) (i : CharacterItem) : CharacterItem :=
  Build (name i) (primaryImage i) (otherImages i) (Some v) (appearances i) (voiceActors i).

Definition set_appearances (v : list string) (i : CharacterItem) : CharacterItem :=
  Build (name i) (primaryImage i) (otherImages i) (titles i) (Some v) (voiceActors i).

Definition set_voiceActors (v : list (string * list string)) (i : CharacterItem)
  : CharacterItem :=
  Build (name i) (primaryImage i) (otherImages i) (titles i) (appearances i) (Some v).

End Item.

(** ** The spider *)

Module CharactersSpider.
Import Dom XPath Run.

Definition BASE_URL : string := "https://fireemblemwiki.org".

(** [scrapy.Request(url, callback=...)]. *)
Inductive callback : Type := Cb_parse | Cb_parse_character.

Record Request : Type := MkRequest { url : string; request_callback : callback }.

(** [//div[@id="mw-pages"]//div[@class="mw-category-group"]//li//a], the
    elements whose [@href] is taken. *)
Definition character_links_path : path :=
  [ Step Descendant (Tag "div") (PAttrEq "id" "mw-pages");
    Step Descendant (Tag "div") (PAttrEq "class" "mw-category-group");
    Step Descendant (Tag "li") PTrue;
    Step Descendant (Tag "a") PTrue ].

(** [//div[@id="mw-pages"]//a[contains(text(), "next")]]. *)
Definition next_page_path : path :=
  [ Step Descendant (Tag "div") (PAttrEq "id" "mw-pages");
    Step Descendant (Tag "a") (PContains FirstText "next") ].

(** [parse]: the requests the generator yields, in order. *)
Definition parse (response : document) : list Request :=
  let character_links := getall_attr character_links_path "href" response in
  let next_page_link := get (getall_attr next_page_path "href" response) in
  map (fun character_link =>
         MkRequest (String.append BASE_URL character_link) Cb_parse_character)
      character_links
  ++ match next_page_link with
     | Some link =>
         if Str.nonempty link
         then [MkRequest (String.append BASE_URL link) Cb_parse]
         else []
     | None => []
     end.

(** [//h1[@id="firstHeading"]/text()]. *)
Definition name_path : path :=
  [ Step Descendant (Tag "h1") (PAttrEq "id" "firstHeading");
    Step Child TextNode PTrue ].

(** [__parse_name]: the flag returned and the item after the call. *)
Definition parse_name (response : document) (character_item : Item.CharacterItem)
  : bool * Item.CharacterItem :=
  let name := get (getall_text name_path response) in
  match name with
  | Some n =>
      if Str.nonempty n then (true, Item.set_name n character_item)
      else (false, character_item)
  | None => (false, character_item)
  end.

(** A text spliced between the double quotes of an XPath string literal
    is the value of that literal only when it holds no double quote:
    XPath 1.0 literals have no escape, so a quote inside ends the literal
    and what follows is read as XPath. *)
Definition literal (s : string) : option string :=
  if Str.has_char Str.dquote s then None else Some s.

(** The f-string [image_path]:
    [//a[@class="image"]//img[contains(@src, "{name}") or
    contains(@src, "{name.lower()}")]], whose [@src] is taken.  [None] when
    the name cuts a literal short: the text is then not this path, and
    [response.xpath] is taken to reject it (the case of a name whose
    remainder happens to form valid XPath again is not told apart). *)
Definition image_path (name : string) : option path :=
  match literal name, literal (Str.lower name) with
  | Some n, Some l =>
      Some [ Step Descendant (Tag "a") (PAttrEq "class" "image");
             Step Descendant (Tag "img")
                  (POr (PContains (AttrVal "src") n) (PContains (AttrVal "src") l)) ]
  | _, _ => None
  end.

(** [//div[@class="tab_content" and @style="display:block;"]{image_path}]. *)
Definition displayed_image_path (name : string) : option path :=
  match image_path name with
  | Some p =>
      Some (Step Descendant (Tag "div")
                 (PAnd (PAttrEq "class" "tab_content")
                       (PAttrEq "style" "display:block;")) :: p)
  | None => None
  end.

(** [response.xpath(text + '/@a').getall()] for a text built by an f-string. *)
Definition xpath_attr (q : option path) (a : string) (response : document)
  : outcome (list string) :=
  match q with
  | Some p => Return (getall_attr p a response)
  | None => Raise (ValueError InvalidXPath)
  end.

Section Constants.

(** [constants.MAX_NUM_OTHER_IMAGES]; the module [constants] is not among
    the sources, so the bound is a parameter of the spider. *)
Variable MAX_NUM_OTHER_IMAGES : nat.

(** [__parse_images]: the item after the call, or the exception raised. *)
Definition parse_images (response : document) (character_item : Item.CharacterItem)
  : outcome Item.CharacterItem :=
  match Item.name character_item with
  | None => Raise (KeyError "name")
  | Some name =>
      match xpath_attr (displayed_image_path name) "src" response with
      | Raise e => Raise e
      | Return displayed =>
          let primary_image_link := get displayed in
          match xpath_attr (image_path name) "src" response with
          | Raise e => Raise e
          | Return found =>
              let image_links := Py.keys (Py.fromkeys found) in
              let primary_image_link :=
                if negb (Py.truthy primary_image_link) && Py.nonempty image_links
                then get image_links
                else primary_image_link in
              let removed :=
                match primary_image_link with
                | Some link =>
                    if Str.nonempty link then Py.remove link image_links
                    else Some image_links
                | None => Some image_links
                end in
              match removed with
              | None => Raise (ValueError NotInList)
              | Some image_links =>
                  let character_item :=
                    match primary_image_link with
                    | Some link =>
                        if Str.nonempty link
                        then Item.set_primaryImage (String.append BASE_URL link)
                                                   character_item
                        else character_item
                    | None => character_item
                    end in
                  let character_item :=
                    if Py.nonempty image_links
                    then Item.set_otherImages
                           (map (String.append BASE_URL)
                                (firstn MAX_NUM_OTHER_IMAGES image_links))
                           character_item
                    else character_item in
                  Return character_item
              end
          end
      end
  end.

End Constants.

(** [//tr[th[contains(text(), "<label>")]]], the row of an infobox field. *)
Definition row (label : string) : step :=
  Step Descendant (Tag "tr")
       (PPath (RStep RChild (Tag "th") (PContains FirstText label) RNil)).

(** [//tr[th[contains(text(), "Appearance")]]/td//a]. *)
Definition appearances_path : path :=
  [ row "Appearance"; Step Child (Tag "td") PTrue; Step Descendant (Tag "a") PTrue ].

(** [__parse_appearances]. *)
Definition parse_appearances (response : document)
  (character_item : Item.CharacterItem) : Item.CharacterItem :=
  let appearances := getall_attr appearances_path "title" response in
  if Py.nonempty appearances
  then Item.set_appearances appearances character_item
  else character_item.

(** [//tr[th[contains(text(), "Title")]]/td//li]. *)
Definition titles_li_path : path :=
  [ row "Title"; Step Child (Tag "td") PTrue; Step Descendant (Tag "li") PTrue ].

(** [//tr[th[contains(text(), "Title")]]/td/p]. *)
Definition titles_p_path : path :=
  [ row "Title"; Step Child (Tag "td") PTrue; Step Child (Tag "p") PTrue ].

(** The loop of [__parse_titles]: [titles] after the items [title_htmls]. *)
Fixpoint collect_titles (title_htmls : list node) (titles : list string)
  : list string :=
  match title_htmls with
  | [] => titles
  | title_html :: rest =>
      let title := BeautifulSoup.get_text title_html in
      collect_titles rest (if Str.nonempty title then titles ++ [title] else titles)
  end.

(** [__parse_titles]. *)
Definition parse_titles (response : document)
  (character_item : Item.CharacterItem) : Item.CharacterItem :=
  let title_htmls :=
    Py.or_else (getall_nodes titles_li_path response)
               (getall_nodes titles_p_path response) in
  let titles := collect_titles title_htmls [] in
  if Py.nonempty titles
  then Item.set_titles titles character_item
  else character_item.

(** The template
    [//tr[th[contains(text(), "Voice")]]/td//a[following-sibling::small/text()[contains(., "$language")]]/text()]
    with [$language] substituted (by a constant of the source). *)
Definition voice_actor_path (language : string) : path :=
  [ row "Voice";
    Step Child (Tag "td") PTrue;
    Step Descendant (Tag "a")
         (PPath (RStep RFollowingSibling (Tag "small") PTrue
                   (RStep RChild TextNode (PContains Self language) RNil)));
    Step Child TextNode PTrue ].

(** [__parse_voice_actors]. *)
Definition parse_voice_actors (response : document)
  (character_item : Item.CharacterItem) : Item.CharacterItem :=
  let english_voice_actors := getall_text (voice_actor_path "English") response in
  let japanese_voice_actors := getall_text (voice_actor_path "Japanese") response in
  let voice_actors : Py.ordered_dict (list string) := [] in
  let voice_actors :=
    if Py.nonempty english_voice_actors
    then Py.setitem "english" english_voice_actors voice_actors
    else voice_actors in
  let voice_actors :=
    if Py.nonempty japanese_voice_actors
    then Py.setitem "japanese" japanese_voice_actors voice_actors
    else voice_actors in
  if Py.nonempty voice_actors
  then Item.set_voiceActors voice_actors character_item
  else character_item.

(** [parse_character]: the item or [None], with the log of the private
    methods invoked on the way. *)
Definition parse_character (MAX_NUM_OTHER_IMAGES : nat) (response : document)
  : M (option Item.CharacterItem) :=
  (let character_item := Item.empty in
   parsed <- invoke Call_parse_name (ret (parse_name response character_item));;
   let '(is_name_parsed, character_item) := parsed in
   if negb is_name_parsed then ret None
   else
     character_item <- invoke Call_parse_images
                         (lift (parse_images MAX_NUM_OTHER_IMAGES response character_item));;
     character_item <- invoke Call_parse_appearances
                         (ret (parse_appearances response character_item));;
     character_item <- invoke Call_parse_titles
                         (ret (parse_titles response character_item));;
     character_item <- invoke Call_parse_voice_actors
                         (ret (parse_voice_actors response character_item));;
     ret (Some character_item))%run.

End CharactersSpider.

(** ** The shape of a position, in the vocabulary of the specification *)

Module Shape.
Import Dom.

Definition is_elem (tag : string) (n : node) : bool :=
  match n with
  | Elem t _ _ => String.eqb t tag
  | Text _ => false
  end.

Definition is_text (n : node) : bool :=
  match n with Text _ => true | Elem _ _ _ => false end.

Definition has_attr (a v : string) (n : node) : bool :=
  match attr a n with
  | Some v' => String.eqb v' v
  | None => false
  end.

(** [at_node P l]: the node at position [l] satisfies [P]. *)
Definition at_node (P : node -> bool) (l : loc) : bool :=
  match l with
  | (n, _) :: _ => P n
  | [] => false
  end.

Definition parent (l : loc) : loc := tl l.

(** The siblings after the node at [l], nearest first. *)
Definition following (l : loc) : list node :=
  match l with
  | (_, after) :: _ => after
  | [] => []
  end.

(** The positions of the ancestors of [l], nearest first. *)
Fixpoint ancestors (l : loc) : list loc :=
  match l with
  | [] => []
  | _ :: up =>
      match up with
      | [] => []
      | _ :: _ => up :: ancestors up
      end
  end.

(** Some ancestor of [l] satisfies [P]. *)
Definition inside (P : loc -> bool) (l : loc) : bool := existsb P (ancestors l).

Definition text_of (n : node) : list string :=
  match n with Text s => [s] | Elem _ _ _ => [] end.

Definition attr_of (a : string) (n : node) : list string :=
  match attr a n with Some v => [v] | None => [] end.

(** The nodes at the positions of [doc] that satisfy [P], in document order. *)
Definition nodes_where (P : loc -> bool) (doc : document) : list node :=
  XPath.nodes_of (filter P (locs doc)).

(** The text of the first text node among the children of [n]. *)
Definition first_child_text (n : node) : string := XPath.first_text (children n).

(** A table row with a header cell whose first text node contains [label]. *)
Definition labelled_row (label : string) (n : node) : bool :=
  is_elem "tr" n
  && existsb (fun k => is_elem "th" k && Str.contains (first_child_text k) label)
             (children n).

(** [l] is a data cell that is a child of a row labelled [label]. *)
Definition cell_of (label : string) (l : loc) : bool :=
  at_node (is_elem "td") l && at_node (labelled_row label) (parent l).

(** Listing pages. *)
Definition pages_div (l : loc) : bool :=
  at_node (fun n => is_elem "div" n && has_attr "id" "mw-pages" n) l.

Definition category_group (l : loc) : bool :=
  at_node (fun n => is_elem "div" n && has_attr "class" "mw-category-group" n) l
  && inside pages_div l.

Definition category_item (l : loc) : bool :=
  at_node (is_elem "li") l && inside category_group l.

(** An anchor inside a list item of the category listing. *)
Definition category_anchor (l : loc) : bool :=
  at_node (is_elem "a") l && inside category_item l.

(** An anchor inside the pages container whose first text node contains
    the word next. *)
Definition next_anchor (l : loc) : bool :=
  at_node (fun n => is_elem "a" n && Str.contains (first_child_text n) "next") l
  && inside pages_div l.

(** A text node that is a child of the first heading. *)
Definition heading_text (l : loc) : bool :=
  at_node is_text l
  && at_node (fun n => is_elem "h1" n && has_attr "id" "firstHeading" n) (parent l).

(** Every text node directly under a first heading is empty. *)
Definition heading_without_text (doc : document) : bool :=
  forallb (fun s => negb (Str.nonempty s))
          (flat_map text_of (nodes_where heading_text doc)).

(** A link inside a data cell of a row labelled [label]. *)
Definition cell_link (label : string) (l : loc) : bool :=
  at_node (is_elem "a") l && inside (cell_of label) l.

(** A list item anywhere inside a data cell of a row labelled [label]. *)
Definition cell_list_item (label : string) (l : loc) : bool :=
  at_node (is_elem "li") l && inside (cell_of label) l.

(** A paragraph that is a child of a data cell of a row labelled [label]. *)
Definition cell_paragraph (label : string) (l : loc) : bool :=
  at_node (is_elem "p") l && cell_of label (parent l).

(** A [small] element with a text node child that contains [language]. *)
Definition annotation (language : string) (n : node) : bool :=
  is_elem "small" n
  && existsb (fun k => match k with
                       | Text s => Str.contains s language
                       | Elem _ _ _ => false
                       end)
             (children n).

(** A link in a Voice cell with an annotation for [language] somewhere
    among the siblings after it. *)
Definition annotated_link (language : string) (l : loc) : bool :=
  cell_link "Voice" l && existsb (annotation language) (following l).

(** A text node child of such a link. *)
Definition annotated_link_text (language : string) (l : loc) : bool :=
  at_node is_text l && annotated_link language (parent l).

(** The element that comes right after the node at [l], if any (text
    between the two, such as white space, is passed over). *)
Fixpoint next_element (after : list node) : option node :=
  match after with
  | [] => None
  | Text _ :: rest => next_element rest
  | Elem t a k :: _ => Some (Elem t a k)
  end.

(** A link in a Voice cell whose next element is an annotation for
    [language]. *)
Definition immediately_annotated_link (language : string) (l : loc) : bool :=
  cell_link "Voice" l
  && match next_element (following l) with
     | Some n => annotation language n
     | None => false
     end.

(** An anchor inside the pages container whose visible text, the text
    of nested elements included, contains the word next. *)
Definition next_anchor_by_visible_text (l : loc) : bool :=
  at_node (fun n => is_elem "a" n && Str.contains (XPath.string_value n) "next") l
  && inside pages_div l.

(** An anchor inside the pages container one of whose own text nodes
    contains the word next. *)
Definition next_anchor_by_some_text (l : loc) : bool :=
  at_node (fun n => is_elem "a" n
                    && existsb (fun s => Str.contains s "next")
                               (flat_map text_of (children n))) l
  && inside pages_div l.

(** Deduplication as the specification words it: an element is kept when
    it has not been seen before, and [seen] grows in the order of arrival. *)
Fixpoint first_seen (seen xs : list string) : list string :=
  match xs with
  | [] => []
  | x :: rest =>
      if existsb (String.eqb x) seen then first_seen seen rest
      else x :: first_seen (seen ++ [x]) rest
  end.

End Shape.

(** ** Example documents *)

Module Examples.
Import Dom.

(** A detail page whose first heading is empty. *)
Definition nameless_page : document :=
  Elem "html" []
    [ Elem "head" [] [Elem "title" [] []];
      Elem "body" [] [Elem "h1" [("id", "firstHeading")] []] ].

Definition image (src : string) : node :=
  Elem "a" [("class", "image")] [Elem "img" [("src", src)] []].

Definition tab (style : string) (kids : list node) : node :=
  Elem "div" [("class", "tab_content"); ("style", style)] kids.

(** Ike: one displayed tab and two hidden ones. *)
Definition ike_page : document :=
  Elem "html" []
    [ Elem "body" []
        [ Elem "h1" [("id", "firstHeading")] [Text "Ike"];
          tab "display:block;" [image "/path-of-radiance-ike.png"];
          tab "display:none;" [image "/radiant-dawn-ike.jpg"];
          tab "display:none;" [image "/fire-emblem-heroes-ike.jpg"] ] ].

(** Reinhardt: one image twice, outside of any tab. *)
Definition reinhardt_page : document :=
  Elem "html" []
    [ Elem "body" []
        [ Elem "h1" [("id", "firstHeading")] [Text "Reinhardt"];
          Elem "div" [] [image "/thracia776-reinhardt.jpg"];
          Elem "div" [] [image "/thracia776-reinhardt.jpg"] ] ].

(** A heading with a double quote in it. *)
Definition quoted_name : string :=
  String.append "Anna " (String Str.dquote (String.append "Merchant" (String Str.dquote EmptyString))).

Definition quoted_page : document :=
  Elem "html" []
    [ Elem "body" []
        [ Elem "h1" [("id", "firstHeading")] [Text quoted_name];
          image "/anna.png" ] ].

(** Two voice actors in one cell, each followed by its annotation. *)
Definition voices_page : document :=
  Elem "html" []
    [ Elem "body" []
        [ Elem "h1" [("id", "firstHeading")] [Text "Jeralt"];
          Elem "table" []
            [ Elem "tr" []
                [ Elem "th" [] [Text "Voiced by"];
                  Elem "td" []
                    [ Elem "a" [("href", "/wiki/Akio")] [Text "Akio Otsuka"];
                      Elem "small" [] [Text "(Japanese, Three Houses)"];
                      Elem "a" [("href", "/wiki/David")] [Text "David Lodge"];
                      Elem "small" [] [Text "(English, Three Houses)"] ] ] ] ] ].

(** A listing page whose next-page anchor starts with other text: its
    text nodes are [go to ] and [ next page], with an element in between. *)
Definition listing_page : document :=
  Elem "html" []
    [ Elem "body" []
        [ Elem "div" [("id", "mw-pages")]
            [ Elem "a" [("href", "/page2")]
                [Text "go to "; Elem "b" [] [Text "the"]; Text " next page"];
              Elem "div" [("class", "mw-category-group")]
                [ Elem "ul" []
                    [ Elem "li" [] [Elem "a" [("href", "/Byleth")] [Text "Byleth"]];
                      Elem "li" [] [Elem "a" [("href", "/Edelgard")] [Text "Edelgard"]] ] ] ] ] ].

(** A Title cell without list items: one paragraph under the cell, one
    deeper down. *)
Definition paragraphs_page : document :=
  Elem "html" []
    [ Elem "body" []
        [ Elem "h1" [("id", "firstHeading")] [Text "Ike"];
          Elem "table" []
            [ Elem "tr" []
                [ Elem "th" [] [Text "Title(s)"];
                  Elem "td" []
                    [ Elem "p" [] [Text "Radiant Hero"];
                      Elem "div" [] [Elem "p" [] [Text "Hero of Blue Flames"]] ] ] ] ] ].

End Examples.

(** ** The shape of the image queries *)

Module ImageShape.
Import Dom Shape.

(** The value of [@src] as [contains] reads it: empty when the attribute
    is missing. *)
Definition src_of (n : node) : string :=
  match attr "src" n with
  | Some v => v
  | None => EmptyString
  end.

(** An anchor of class [image]. *)
Definition image_anchor (l : loc) : bool :=
  at_node (fun n => is_elem "a" n && has_attr "class" "image" n) l.

(** An [img] whose source contains the name or the name in lower case. *)
Definition named_img (name : string) (n : node) : bool :=
  is_elem "img" n
  && (Str.contains (src_of n) name || Str.contains (src_of n) (Str.lower name)).

(** A candidate image: such an [img] inside an image anchor. *)
Definition candidate_image (name : string) (l : loc) : bool :=
  at_node (named_img name) l && inside image_anchor l.

(** A container marked as the displayed tab. *)
Definition displayed_tab (l : loc) : bool :=
  at_node (fun n => is_elem "div" n
                    && (has_attr "class" "tab_content" n
                        && has_attr "style" "display:block;" n)) l.

(** A candidate image whose image anchor lies inside a displayed tab. *)
Definition displayed_candidate (name : string) (l : loc) : bool :=
  at_node (named_img name) l
  && inside (fun u => image_anchor u && inside displayed_tab u) l.

(** A name made of ASCII characters, on which [Str.lower] is
    [str.lower()]. *)
Fixpoint is_ascii (s : string) : bool :=
  match s with
  | EmptyString => true
  | String c rest => Nat.ltb (nat_of_ascii c) 128 && is_ascii rest
  end.

End ImageShape.

(** ** Further example documents *)

Module MoreExamples.
Import Dom.

(** A Title cell with a list item and a paragraph next to the list. *)
Definition mixed_titles_page : document :=
  Elem "html" []
    [ Elem "body" []
        [ Elem "h1" [("id", "firstHeading")] [Text "Marth"];
          Elem "table" []
            [ Elem "tr" []
                [ Elem "th" [] [Text "Title(s)"];
                  Elem "td" []
                    [ Elem "p" [] [Text "Altean Prince"];
                      Elem "ul" [] [Elem "li" [] [Text "Hero-King"]] ] ] ] ] ].

(** A page without a pages container. *)
Definition plain_page : document :=
  Elem "html" []
    [ Elem "body" []
        [ Elem "div" [("class", "mw-category-group")]
            [ Elem "ul" []
                [ Elem "li" [] [Elem "a" [("href", "/Byleth")] [Text "next"]] ] ] ] ].



End MoreExamples.

(** ** The MongoDB pipeline *)

(** [fire_emblem_data_scraper/pipelines/mongo_pipeline.py], class
    [MongoPipeline].  What pymongo does is not part of the repository:
    its calls are the fields of a driver, over a state of the world that
    only the driver reads and writes, and each call may raise. *)
Module MongoPipeline.

Inductive error (E : Type) : Type :=
| AttributeError (attribute : string)   (* an attribute that was never assigned *)
| DriverError (e : E).                  (* whatever a call of the driver raises *)
Arguments AttributeError {E} attribute.
Arguments DriverError {E} e.

Inductive result (E A : Type) : Type :=
| Returned (a : A)
| Raised (e : error E).
Arguments Returned {E A} a.
Arguments Raised {E A} e.

(** The calls the pipeline makes: [MongoClient(uri)], [client[name]],
    [database[name]], [collection.insert_one(document)] and
    [client.close()].  A name or URI may be [None]. *)
Record driver (World Client Database Collection Document E : Type) : Type :=
  MkDriver {
    mongo_client : option string -> World -> (Client + E) * World;
    get_database : Client -> option string -> World -> (Database + E) * World;
    get_collection : Database -> option string -> World -> (Collection + E) * World;
    insert_one : Collection -> Document -> World -> (unit + E) * World;
    close : Client -> World -> (unit + E) * World
  }.
Arguments mongo_client {World Client Database Collection Document E} d.
Arguments get_database {World Client Database Collection Document E} d.
Arguments get_collection {World Client Database Collection Document E} d.
Arguments insert_one {World Client Database Collection Document E} d.
Arguments close {World Client Database Collection Document E} d.

(** The attributes of a pipeline object; [client] and [database] exist
    only once [open_spider] has assigned them. *)
Record pipeline (Client Database : Type) : Type := MkPipeline {
  collection_name : option string;
  database_name : option string;
  uri : option string;
  client : option Client;
  database : option Database
}.
Arguments MkPipeline {Client Database}.
Arguments collection_name {Client Database} p.
Arguments database_name {Client Database} p.
Arguments uri {Client Database} p.
Arguments client {Client Database} p.
Arguments database {Client Database} p.

(** [crawler.settings.get(name, default)]: the value of a setting that is
    present, the default otherwise. *)
Definition settings_get (settings : list (string * string)) (name : string)
  (default : option string) : option string :=
  match Dom.assoc name settings with
  | Some v => Some v
  | None => default
  end.

Section Pipeline.
Context {World Client Database Collection Document E Item : Type}.
Variable pymongo : driver World Client Database Collection Document E.

(** [dict(item)]. *)
Variable dict : Item -> Document.

(** [__init__]. *)
Definition init (collection_name database_name uri : option string)
  : pipeline Client Database :=
  MkPipeline collection_name database_name uri None None.

(** [from_crawler], given the settings of the crawler and the value of
    [os.getenv('MONGO_URI')]. *)
Definition from_crawler (settings : list (string * string))
  (env_mongo_uri : option string) : pipeline Client Database :=
  init (settings_get settings "MONGO_COLLECTION_NAME" None)
       (settings_get settings "MONGO_DATABASE_NAME" (Some "fireEmblemData"))
       (settings_get settings "MONGO_URI" env_mongo_uri).

(** [open_spider]: the result, the pipeline object and the world after
    the call. *)
Definition open_spider (self : pipeline Client Database) (world : World)
  : result E unit * pipeline Client Database * World :=
  match mongo_client pymongo (uri self) world with
  | (inr e, world) => (Raised (DriverError e), self, world)
  | (inl c, world) =>
      let self := MkPipeline (collection_name self) (database_name self)
                             (uri self) (Some c) (database self) in
      match get_database pymongo c (database_name self) world with
      | (inr e, world) => (Raised (DriverError e), self, world)
      | (inl d, world) =>
          (Returned tt,
           MkPipeline (collection_name self) (database_name self)
                      (uri self) (client self) (Some d),
           world)
      end
  end.

(** [close_spider]. *)
Definition close_spider (self : pipeline Client Database) (world : World)
  : result E unit * pipeline Client Database * World :=
  match client self with
  | None => (Raised (AttributeError "client"), self, world)
  | Some c =>
      match close pymongo c world with
      | (inr e, world) => (Raised (DriverError e), self, world)
      | (inl _, world) => (Returned tt, self, world)
      end
  end.

(** [process_item]. *)
Definition process_item (self : pipeline Client Database) (item : Item)
  (world : World) : result E Item * pipeline Client Database * World :=
  match database self with
  | None => (Raised (AttributeError "database"), self, world)
  | Some d =>
      match get_collection pymongo d (collection_name self) world with
      | (inr e, world) => (Raised (DriverError e), self, world)
      | (inl collection, world) =>
          match insert_one pymongo collection (dict item) world with
          | (inr e, world) => (Raised (DriverError e), self, world)
          | (inl _, world) => (Returned item, self, world)
          end
      end
  end.

End Pipeline.

(** An example of a driver, one that keeps the documents in memory: the
    world is the list of the documents inserted so far, each with the URI,
    the database and the collection it went to; no call raises. *)
Definition place : Type := (option string * option string * option string)%type.

Definition memory_driver (Document : Type)
  : driver (list (place * Document)) (option string)
           (option string * option string) place Document Empty_set :=
  MkDriver _ _ _ _ _ _
    (fun uri world => (inl uri, world))
    (fun client name world => (inl (client, name), world))
    (fun database name world => (inl (fst database, snd database, name), world))
    (fun collection document world => (inl tt, world ++ [(collection, document)]))
    (fun client world => (inl tt, world)).

End MongoPipeline.

(** * Properties *)

(** ** Strings *)

Module StrFacts.
Import Str.

Lemma append_empty_r (s : string) : String.append s EmptyString = s.
Proof.
  induction s as [|c s IH]; simpl; [reflexivity|now rewrite IH].
Qed.

Lemma append_inj_r (p a b : string) :
  String.append p a = String.append p b -> a = b.
Proof.
  induction p as [|c p IH]; simpl; intros H; [exact H|].
  injection H as H. now apply IH.
Qed.

Lemma prefix_nonempty (needle hay : string) :
  String.prefix needle hay = true -> nonempty needle = true -> nonempty hay = true.
Proof.
  destruct needle as [|c n]; [discriminate|].
  destruct hay as [|d h]; simpl; [discriminate|reflexivity].
Qed.

Lemma contains_nonempty (hay needle : string) :
  contains hay needle = true -> nonempty needle = true -> nonempty hay = true.
Proof.
  destruct hay as [|d h]; simpl; [|reflexivity].
  destruct needle; simpl; intros H1 H2; congruence.
Qed.

Lemma lower_nonempty (s : string) : nonempty (lower s) = nonempty s.
Proof. destruct s; reflexivity. Qed.


Lemma join_single (s : string) : join [s] = s.
Proof. unfold join. simpl. apply append_empty_r. Qed.

End StrFacts.

(** ** Documents *)

Module DomFacts.
Import Dom.

Lemma node_rect' (P : node -> Prop) :
  (forall s, P (Text s)) ->
  (forall tag attrs kids, Forall P kids -> P (Elem tag attrs kids)) ->
  forall n, P n.
Proof.
  intros P_text P_elem. fix IH 1. intros [s|tag attrs kids].
  - apply P_text.
  - apply P_elem. induction kids as [|k ks IHks]; constructor.
    + apply IH.
    + exact IHks.
Qed.

Lemma locs_from_eq (up : loc) (n : node) (after : list node) :
  locs_from up n after
  = ((n, after) :: up) :: locs_kids ((n, after) :: up) (children n).
Proof.
  destruct n as [s|tag attrs kids]; simpl; [reflexivity|].
  f_equal. generalize ((Elem tag attrs kids, after) :: up) as me. intros me.
  induction kids as [|k ks IH]; simpl; [reflexivity|now rewrite IH].
Qed.


(** Every position of a document is a non-empty list of frames. *)
Lemma locs_from_nonempty (n : node) :
  forall up after l, In l (locs_from up n after) -> l <> [].
Proof.
  induction n as [s|tag attrs kids IH] using node_rect'; intros up after l Hin.
  - simpl in Hin. destruct Hin as [<-|[]]. discriminate.
  - rewrite locs_from_eq in Hin. destruct Hin as [<-|Hin]; [discriminate|].
    simpl in Hin. remember ((Elem tag attrs kids, after) :: up) as me eqn:E. clear E.
    induction IH as [|k ks Hk _ IHks]; simpl in Hin; [contradiction|].
    apply in_app_or in Hin. destruct Hin as [Hin|Hin]; [now apply Hk in Hin|now apply IHks].
Qed.

Lemma locs_nonempty (doc : document) (l : loc) : In l (locs doc) -> l <> [].
Proof. apply locs_from_nonempty. Qed.

End DomFacts.

(** ** Path selection *)

Module XPathFacts.
Import Dom XPath Shape.

Lemma existsb_ext {A : Type} (f g : A -> bool) (l : list A) :
  (forall x, f x = g x) -> existsb f l = existsb g l.
Proof.
  intros H. induction l as [|x l IH]; simpl; [reflexivity|now rewrite H, IH].
Qed.

Lemma any_suffix_mono (P Q : loc -> bool) (u : loc) :
  (forall l, P l = true -> Q l = true) ->
  any_suffix P u = true -> any_suffix Q u = true.
Proof.
  intros H. induction u as [|f u IH]; simpl.
  - rewrite !orb_false_r. apply H.
  - rewrite !orb_true_iff. intros [HP|HP]; [left; now apply H|right; now apply IH].
Qed.

Lemma any_suffix_root (u : loc) : any_suffix (sel []) u = true.
Proof.
  induction u as [|f u IH]; simpl; [reflexivity|exact IH].
Qed.

(** Looking at a position and everything above it is looking at the
    ancestors of its children. *)
Lemma any_suffix_ancestors (P : loc -> bool) (f : frame) (up : loc) :
  P [] = false -> any_suffix P up = existsb P (ancestors (f :: up)).
Proof.
  intros H0. revert f. induction up as [|g up IH]; intros f.
  - simpl. now rewrite H0.
  - change (any_suffix P (g :: up)) with (P (g :: up) || any_suffix P up).
    change (ancestors (f :: g :: up)) with ((g :: up) :: ancestors (g :: up)).
    simpl existsb. now rewrite (IH g).
Qed.

Lemma sel_above_root (s : step) (rest : list step) : sel (s :: rest) [] = false.
Proof. reflexivity. Qed.

Lemma sel_desc (s : step) (r : step) (rest : list step) (l : loc) :
  step_axis s = Descendant ->
  sel (s :: r :: rest) l
  = match l with f :: _ => step_holds s f | [] => false end
    && inside (sel (r :: rest)) l.
Proof.
  intros Hax. destruct l as [|[n after] up]; [reflexivity|].
  change (sel (s :: r :: rest) ((n, after) :: up))
    with (step_holds s (n, after)
          && match step_axis s with
             | Child => sel (r :: rest) up
             | Descendant => any_suffix (sel (r :: rest)) up
             end).
  rewrite Hax. unfold inside.
  now rewrite <- (any_suffix_ancestors (sel (r :: rest)) (n, after) up).
Qed.

Lemma sel_desc_last (s : step) (l : loc) :
  step_axis s = Descendant ->
  sel [s] l = match l with f :: _ => step_holds s f | [] => false end.
Proof.
  intros Hax. destruct l as [|f up]; [reflexivity|].
  cbn [sel]. rewrite Hax, any_suffix_root. apply andb_true_r.
Qed.

Lemma sel_child (s : step) (rest : list step) (l : loc) :
  step_axis s = Child ->
  sel (s :: rest) l
  = match l with f :: _ => step_holds s f | [] => false end && sel rest (parent l).
Proof.
  intros Hax. destruct l as [|f up]; [reflexivity|].
  cbn [sel parent tl]. now rewrite Hax.
Qed.

(** A path that begins with [//] selects whatever it selects after a
    further step has been put in front of it. *)
Lemma sel_drop_outer (s0 s1 : step) (rs : list step) :
  step_axis s1 = Descendant ->
  forall l, sel (rs ++ [s1; s0]) l = true -> sel (rs ++ [s1]) l = true.
Proof.
  intros Hax. induction rs as [|r rs IH]; intros l.
  - destruct l as [|f up]; [discriminate|].
    cbn [app sel]. rewrite Hax, any_suffix_root.
    rewrite !andb_true_iff. tauto.
  - destruct l as [|f up]; [discriminate|].
    cbn [app sel]. rewrite !andb_true_iff. intros [Hs Hrest]. split; [exact Hs|].
    destruct (step_axis r).
    + now apply IH.
    + revert Hrest. apply any_suffix_mono. exact IH.
Qed.

Lemma nodes_of_app (a b : list loc) : nodes_of (a ++ b) = nodes_of a ++ nodes_of b.
Proof. unfold nodes_of. apply flat_map_app. Qed.

Lemma in_nodes_of (n : node) (ls : list loc) :
  In n (nodes_of ls) <-> exists l, In l ls /\ here l = Some n.
Proof.
  unfold nodes_of. rewrite in_flat_map. split.
  - intros [l [Hl Hn]]. exists l. split; [exact Hl|].
    destruct (here l) as [m|]; simpl in Hn; [|contradiction].
    destruct Hn as [->|[]]. reflexivity.
  - intros [l [Hl Hn]]. exists l. split; [exact Hl|]. rewrite Hn. now left.
Qed.

(** A path selects the nodes at the positions its steps describe. *)
Lemma getall_nodes_where (p : path) (Q : loc -> bool) (doc : document) :
  (forall l, sel (rev p) l = Q l) -> getall_nodes p doc = nodes_where Q doc.
Proof.
  intros H. unfold getall_nodes, nodes_where, select. f_equal.
  apply filter_ext_in. intros l _. apply H.
Qed.

Lemma getall_attr_where (p : path) (Q : loc -> bool) (a : string) (doc : document) :
  (forall l, sel (rev p) l = Q l) ->
  getall_attr p a doc = flat_map (attr_of a) (nodes_where Q doc).
Proof.
  intros H. unfold getall_attr. now rewrite (getall_nodes_where p Q doc H).
Qed.

Lemma getall_text_where (p : path) (Q : loc -> bool) (doc : document) :
  (forall l, sel (rev p) l = Q l) ->
  getall_text p doc = flat_map text_of (nodes_where Q doc).
Proof.
  intros H. unfold getall_text. now rewrite (getall_nodes_where p Q doc H).
Qed.

Lemma in_getall_attr (p : path) (a v : string) (doc : document) :
  In v (getall_attr p a doc) <->
  exists l n, In l (locs doc) /\ sel (rev p) l = true
              /\ here l = Some n /\ attr a n = Some v.
Proof.
  unfold getall_attr. rewrite in_flat_map. split.
  - intros [n [Hn Hv]]. unfold getall_nodes in Hn. apply in_nodes_of in Hn.
    destruct Hn as [l [Hl Hh]]. unfold select in Hl. apply filter_In in Hl.
    exists l, n. destruct (attr a n) as [w|]; simpl in Hv; [|contradiction].
    destruct Hv as [->|[]]. tauto.
  - intros [l [n [Hl [Hs [Hh Ha]]]]]. exists n. split.
    + unfold getall_nodes. apply in_nodes_of. exists l. split; [|exact Hh].
      unfold select. apply filter_In. tauto.
    + rewrite Ha. now left.
Qed.

End XPathFacts.

(** ** Ordered dictionaries and lists *)

Module PyFacts.
Import Py Shape.

Lemma mem_In (x : string) (l : list string) :
  existsb (String.eqb x) l = true <-> In x l.
Proof.
  rewrite existsb_exists. split.
  - intros [y [Hy He]]. apply String.eqb_eq in He. now subst.
  - intros H. exists x. split; [exact H|apply String.eqb_refl].
Qed.

Lemma keys_setitem {V : Type} (k : string) (v : V) (d : ordered_dict V) :
  keys (setitem k v d)
  = if existsb (String.eqb k) (keys d) then keys d else keys d ++ [k].
Proof.
  unfold keys. induction d as [|[k' v'] d IH]; simpl; [reflexivity|].
  rewrite (String.eqb_sym k k').
  destruct (String.eqb k' k) eqn:E; simpl; [reflexivity|].
  rewrite IH.
  now destruct (existsb (String.eqb k) (map fst d)).
Qed.

Lemma keys_fold (xs : list string) (d : ordered_dict unit) :
  keys (fold_left (fun d k => setitem k tt d) xs d)
  = keys d ++ first_seen (keys d) xs.
Proof.
  revert d. induction xs as [|x xs IH]; intros d; simpl.
  - now rewrite app_nil_r.
  - rewrite IH, keys_setitem.
    destruct (existsb (String.eqb x) (keys d)); [reflexivity|].
    now rewrite <- app_assoc.
Qed.

(** [list(OrderedDict.fromkeys(xs))] keeps the first of equal elements. *)
Lemma keys_fromkeys (xs : list string) : keys (fromkeys xs) = first_seen [] xs.
Proof. unfold fromkeys. now rewrite keys_fold. Qed.

Lemma first_seen_In (x : string) (xs seen : list string) :
  In x (first_seen seen xs) <-> In x xs /\ ~ In x seen.
Proof.
  revert seen. induction xs as [|y xs IH]; intros seen; simpl; [tauto|].
  destruct (existsb (String.eqb y) seen) eqn:E.
  - apply mem_In in E. rewrite IH. split; [tauto|].
    intros [[->|H] Hn]; [contradiction|tauto].
  - assert (Hy : ~ In y seen) by (intros H; apply mem_In in H; congruence).
    simpl. rewrite IH, in_app_iff. simpl. split.
    + intros [->|[H Hn]]; [tauto|]. split; [tauto|]. tauto.
    + intros [[->|H] Hn]; [tauto|]. destruct (string_dec y x) as [->|Hne]; [tauto|].
      right. split; [exact H|]. intros [H'|[H'|[]]]; [tauto|congruence].
Qed.

Lemma first_seen_NoDup (xs seen : list string) : NoDup (first_seen seen xs).
Proof.
  revert seen. induction xs as [|y xs IH]; intros seen; simpl; [constructor|].
  destruct (existsb (String.eqb y) seen); [apply IH|].
  constructor; [|apply IH].
  rewrite first_seen_In, in_app_iff. simpl. tauto.
Qed.

(** An element that was seen already, or that occurs earlier in the
    list, adds nothing and moves nothing. *)
Lemma first_seen_repeat (s : string) (pre post seen : list string) :
  In s seen \/ In s pre ->
  first_seen seen (pre ++ s :: post) = first_seen seen (pre ++ post).
Proof.
  revert seen. induction pre as [|x pre IH]; intros seen H; simpl.
  - destruct H as [H|[]]. apply mem_In in H. now rewrite H.
  - destruct (existsb (String.eqb x) seen) eqn:E.
    + apply IH. destruct H as [H|[->|H]]; [tauto| |tauto].
      left. now apply mem_In.
    + f_equal. apply IH. rewrite in_app_iff. simpl.
      destruct H as [H|[->|H]]; tauto.
Qed.

Lemma remove_In (x : string) (l : list string) :
  In x l -> exists l', remove x l = Some l'.
Proof.
  induction l as [|y l IH]; simpl; [contradiction|].
  intros H. destruct (String.eqb y x) eqn:E; [now eexists|].
  destruct H as [->|H]; [now rewrite String.eqb_refl in E|].
  destruct (IH H) as [l' ->]. now eexists.
Qed.

Lemma remove_head (x : string) (l : list string) : remove x (x :: l) = Some l.
Proof. simpl. now rewrite String.eqb_refl. Qed.

Lemma remove_NoDup (x : string) (l l' : list string) :
  NoDup l -> remove x l = Some l' -> ~ In x l' /\ incl l' l.
Proof.
  revert l'. induction l as [|y l IH]; intros l' Hnd; simpl; [discriminate|].
  inversion Hnd as [|? ? Hy Hnd']; subst.
  destruct (String.eqb y x) eqn:E.
  - apply String.eqb_eq in E. subst. intros [= <-]. split; [exact Hy|].
    intros z Hz. now right.
  - apply String.eqb_neq in E. destruct (remove x l) as [r|] eqn:Er; [|discriminate].
    intros [= <-]. destruct (IH r Hnd' eq_refl) as [Hn Hi]. split.
    + intros [H|H]; [congruence|tauto].
    + intros z [->|Hz]; [now left|right; now apply Hi].
Qed.

End PyFacts.

(** ** The spider's queries, read as shapes *)

Module QueryFacts.
Import Dom XPath Shape XPathFacts CharactersSpider.

Lemma existsb_sib_frames (F : node -> bool) (ks : list node) :
  existsb (fun g : frame => F (fst g)) (sib_frames ks) = existsb F ks.
Proof.
  induction ks as [|k ks IH]; simpl; [reflexivity|now rewrite IH].
Qed.

Lemma node_test_tag (t : string) (n : node) : node_test (Tag t) n = is_elem t n.
Proof. destruct n; reflexivity. Qed.

Lemma node_test_text (n : node) : node_test TextNode n = is_text n.
Proof. destruct n; reflexivity. Qed.

Lemma holds_attr_eq (a v : string) (f : frame) :
  holds (PAttrEq a v) f = has_attr a v (fst f).
Proof. reflexivity. Qed.

Lemma step_holds_plain (ax : axis) (t : string) (f : frame) :
  step_holds (Step ax (Tag t) PTrue) f = is_elem t (fst f).
Proof.
  unfold step_holds. cbn [step_test step_pred holds]. rewrite node_test_tag. apply andb_true_r.
Qed.

Lemma step_holds_row (label : string) (f : frame) :
  step_holds (row label) f = labelled_row label (fst f).
Proof.
  unfold step_holds, row, labelled_row. cbn [step_test step_pred holds reach axis_frames].
  rewrite node_test_tag. f_equal.
  rewrite <- (existsb_sib_frames
                (fun k => is_elem "th" k && Str.contains (first_child_text k) label)).
  apply existsb_ext. intros [k after]. cbn [fst eval_sexp].
  now rewrite node_test_tag, andb_true_r.
Qed.

Lemma at_node_frame (P : node -> bool) (l : loc) :
  match l with f :: _ => P (fst f) | [] => false end = at_node P l.
Proof. destruct l as [|[n a] up]; reflexivity. Qed.

(** [.../tr[th[...]]/td] selects the data cells of the labelled rows. *)
Lemma sel_cell (label : string) (l : loc) :
  sel [Step Child (Tag "td") PTrue; row label] l = cell_of label l.
Proof.
  rewrite sel_child by reflexivity. rewrite sel_desc_last by reflexivity.
  unfold cell_of. f_equal.
  - rewrite <- at_node_frame. destruct l as [|f up]; [reflexivity|].
    apply step_holds_plain.
  - rewrite <- at_node_frame. destruct (parent l) as [|f up]; [reflexivity|].
    apply step_holds_row.
Qed.

Lemma inside_ext (P Q : loc -> bool) (l : loc) :
  (forall u, P u = Q u) -> inside P l = inside Q l.
Proof. intros H. unfold inside. now apply existsb_ext. Qed.


Lemma sel_titles_li (l : loc) :
  sel (rev titles_li_path) l = cell_list_item "Title" l.
Proof.
  change (rev titles_li_path)
    with [Step Descendant (Tag "li") PTrue; Step Child (Tag "td") PTrue; row "Title"].
  rewrite sel_desc by reflexivity. unfold cell_list_item. f_equal.
  - rewrite <- at_node_frame. destruct l as [|f up]; [reflexivity|].
    apply step_holds_plain.
  - apply inside_ext. intros u. apply sel_cell.
Qed.

Lemma sel_titles_p (l : loc) :
  sel (rev titles_p_path) l = cell_paragraph "Title" l.
Proof.
  change (rev titles_p_path)
    with [Step Child (Tag "p") PTrue; Step Child (Tag "td") PTrue; row "Title"].
  rewrite sel_child by reflexivity. unfold cell_paragraph. f_equal.
  - rewrite <- at_node_frame. destruct l as [|f up]; [reflexivity|].
    apply step_holds_plain.
  - apply sel_cell.
Qed.

Lemma sel_name (l : loc) : sel (rev name_path) l = heading_text l.
Proof.
  change (rev name_path)
    with [Step Child TextNode PTrue;
          Step Descendant (Tag "h1") (PAttrEq "id" "firstHeading")].
  rewrite sel_child by reflexivity. rewrite sel_desc_last by reflexivity.
  unfold heading_text. f_equal.
  - rewrite <- at_node_frame. destruct l as [|f up]; [reflexivity|].
    unfold step_holds. cbn [step_test step_pred holds]. rewrite node_test_text. apply andb_true_r.
  - rewrite <- at_node_frame. destruct (parent l) as [|f up]; [reflexivity|].
    unfold step_holds. cbn [step_test step_pred holds]. now rewrite node_test_tag.
Qed.

Lemma sel_pages (l : loc) :
  sel [Step Descendant (Tag "div") (PAttrEq "id" "mw-pages")] l = pages_div l.
Proof.
  rewrite sel_desc_last by reflexivity. unfold pages_div.
  rewrite <- at_node_frame. destruct l as [|f up]; [reflexivity|].
  unfold step_holds. cbn [step_test step_pred holds]. now rewrite node_test_tag.
Qed.

Lemma sel_character_links (l : loc) :
  sel (rev character_links_path) l = category_anchor l.
Proof.
  change (rev character_links_path)
    with [Step Descendant (Tag "a") PTrue;
          Step Descendant (Tag "li") PTrue;
          Step Descendant (Tag "div") (PAttrEq "class" "mw-category-group");
          Step Descendant (Tag "div") (PAttrEq "id" "mw-pages")].
  rewrite sel_desc by reflexivity. unfold category_anchor. f_equal.
  { rewrite <- at_node_frame. destruct l as [|f up]; [reflexivity|].
    apply step_holds_plain. }
  apply inside_ext. intros u.
  rewrite sel_desc by reflexivity. unfold category_item. f_equal.
  { rewrite <- at_node_frame. destruct u as [|f up]; [reflexivity|].
    apply step_holds_plain. }
  apply inside_ext. intros v.
  rewrite sel_desc by reflexivity. unfold category_group. f_equal.
  { rewrite <- at_node_frame. destruct v as [|f up]; [reflexivity|].
    unfold step_holds. cbn [step_test step_pred holds]. now rewrite node_test_tag. }
  apply inside_ext. intros w. apply sel_pages.
Qed.

Lemma sel_next_page (l : loc) : sel (rev next_page_path) l = next_anchor l.
Proof.
  change (rev next_page_path)
    with [Step Descendant (Tag "a") (PContains FirstText "next");
          Step Descendant (Tag "div") (PAttrEq "id" "mw-pages")].
  rewrite sel_desc by reflexivity. unfold next_anchor. f_equal.
  { rewrite <- at_node_frame. destruct l as [|f up]; [reflexivity|].
    unfold step_holds. cbn [step_test step_pred holds]. now rewrite node_test_tag. }
  apply inside_ext. intros u. apply sel_pages.
Qed.

Lemma holds_annotation (language : string) (f : frame) :
  holds (PPath (RStep RFollowingSibling (Tag "small") PTrue
                  (RStep RChild TextNode (PContains Self language) RNil))) f
  = existsb (annotation language) (snd f).
Proof.
  cbn [holds reach axis_frames].
  rewrite <- (existsb_sib_frames (annotation language)).
  apply existsb_ext. intros [n after]. cbn [fst]. unfold annotation.
  rewrite node_test_tag, andb_true_r. f_equal.
  rewrite <- (existsb_sib_frames
                (fun k => match k with
                          | Text s => Str.contains s language
                          | Elem _ _ _ => false
                          end)).
  apply existsb_ext. intros [k after']. cbn [fst eval_sexp].
  rewrite andb_true_r. destruct k as [s|t a ks]; [|reflexivity].
  cbn [node_test andb]. unfold string_value. cbn [strings].
  now rewrite StrFacts.join_single.
Qed.

Lemma sel_voice (language : string) (l : loc) :
  sel (rev (voice_actor_path language)) l = annotated_link_text language l.
Proof.
  change (rev (voice_actor_path language))
    with [Step Child TextNode PTrue;
          Step Descendant (Tag "a")
               (PPath (RStep RFollowingSibling (Tag "small") PTrue
                         (RStep RChild TextNode (PContains Self language) RNil)));
          Step Child (Tag "td") PTrue; row "Voice"].
  rewrite sel_child by reflexivity. unfold annotated_link_text. f_equal.
  { rewrite <- at_node_frame. destruct l as [|f up]; [reflexivity|].
    unfold step_holds. cbn [step_test step_pred holds]. rewrite node_test_text. apply andb_true_r. }
  rewrite sel_desc by reflexivity. unfold annotated_link, cell_link.
  rewrite <- andb_assoc, (andb_comm (inside _ _)), andb_assoc. f_equal.
  - destruct (parent l) as [|[n after] up]; [reflexivity|].
    unfold step_holds. cbn [step_test step_pred fst at_node following].
    now rewrite node_test_tag, holds_annotation.
  - apply inside_ext. intros u. apply sel_cell.
Qed.

End QueryFacts.

(** ** The record assembler and its extractors *)

Import Dom XPath Run Shape CharactersSpider.

Lemma parse_name_spec (doc : document) (item : Item.CharacterItem) :
  parse_name doc item
  = match get (flat_map text_of (nodes_where heading_text doc)) with
    | Some n => if Str.nonempty n then (true, Item.set_name n item) else (false, item)
    | None => (false, item)
    end.
Proof.
  unfold parse_name.
  now rewrite (XPathFacts.getall_text_where name_path heading_text doc QueryFacts.sel_name).
Qed.

(** C1.  A document in which no first heading has a non-empty text node
    of its own makes [parse_character] return [None], and the only method
    invoked on the way is [__parse_name]: neither the image selector nor
    any field extractor is called. *)
Theorem parse_character_without_name (MAX : nat) (doc : document) :
  heading_without_text doc = true ->
  run (parse_character MAX doc) = (Return None, [Call_parse_name]).
Proof.
  intros H. unfold run, parse_character, bind, invoke, ret.
  rewrite parse_name_spec. unfold heading_without_text in H.
  destruct (flat_map text_of (nodes_where heading_text doc)) as [|s rest];
    [reflexivity|].
  simpl in H. apply andb_true_iff in H. destruct H as [H _].
  simpl. destruct (Str.nonempty s); [discriminate|reflexivity].
Qed.

Lemma parse_character_without_name_witness :
  heading_without_text Examples.nameless_page = true
  /\ run (parse_character 2 Examples.nameless_page) = (Return None, [Call_parse_name]).
Proof.
  split; [reflexivity|].
  apply (parse_character_without_name 2 Examples.nameless_page). reflexivity.
Defined.

Lemma in_map_base (p : string) (l : list string) :
  In (String.append BASE_URL p) (map (String.append BASE_URL) l) -> In p l.
Proof.
  rewrite in_map_iff. intros [q [Hq Hin]].
  apply StrFacts.append_inj_r in Hq. now subst.
Qed.

Lemma firstn_incl {A : Type} (n : nat) (l : list A) : incl (firstn n l) l.
Proof.
  revert n. induction l as [|x l IH]; intros [|n]; simpl; intros y Hy;
    try contradiction.
  destruct Hy as [->|Hy]; [now left|right; now apply (IH n)].
Qed.

Lemma image_links_NoDup (found : list string) : NoDup (Py.keys (Py.fromkeys found)).
Proof. rewrite PyFacts.keys_fromkeys. apply PyFacts.first_seen_NoDup. Qed.

(** C2.  Whatever the document and the name, when [__parse_images] has
    set the image fields of a fresh item, [otherImages] does not contain
    [primaryImage] and is not longer than [MAX_NUM_OTHER_IMAGES]. *)
Theorem other_images_exclude_primary_and_are_capped
  (MAX : nat) (doc : document) (name : string) (item : Item.CharacterItem) :
  parse_images MAX doc (Item.set_name name Item.empty) = Return item ->
  (forall p others,
     Item.primaryImage item = Some p -> Item.otherImages item = Some others ->
     ~ In p others)
  /\ (forall others, Item.otherImages item = Some others -> length others <= MAX).
Proof.
  unfold parse_images. cbn [Item.name Item.set_name].
  destruct (xpath_attr (displayed_image_path name) "src" doc) as [displayed|e];
    [|discriminate].
  destruct (xpath_attr (image_path name) "src" doc) as [found|e]; [|discriminate].
  pose proof (image_links_NoDup found) as Hnd.
  set (links := Py.keys (Py.fromkeys found)) in *.
  set (primary := if negb (Py.truthy (get displayed)) && Py.nonempty links
                  then get links else get displayed).
  assert (Hcap : forall l, length (map (String.append BASE_URL) (firstn MAX l)) <= MAX).
  { intros l. rewrite length_map. apply firstn_le_length. }
  destruct primary as [link|].
  - destruct (Str.nonempty link).
    + destruct (Py.remove link links) as [rest|] eqn:Hrm; [|discriminate].
      destruct (PyFacts.remove_NoDup link links rest Hnd Hrm) as [Hnotin _].
      intros [= <-]. destruct (Py.nonempty rest); cbn; split.
      * intros p others [= <-] [= <-] Hin. apply in_map_base in Hin.
        apply firstn_incl in Hin. contradiction.
      * intros others [= <-]. apply Hcap.
      * intros p others _ [=].
      * intros others [=].
    + intros [= <-]. destruct (Py.nonempty links); cbn; split;
        try (intros p others [=]); try (intros others [=]).
      subst. apply Hcap.
  - intros [= <-]. destruct (Py.nonempty links); cbn; split;
      try (intros p others [=]); try (intros others [=]).
    subst. apply Hcap.
Qed.

Lemma other_images_exclude_primary_and_are_capped_witness :
  let item :=
    Item.Build (Some "Ike")
               (Some "https://fireemblemwiki.org/path-of-radiance-ike.png")
               (Some ["https://fireemblemwiki.org/radiant-dawn-ike.jpg"])
               None None None in
  parse_images 1 Examples.ike_page (Item.set_name "Ike" Item.empty) = Return item
  /\ ((forall p others,
         Item.primaryImage item = Some p -> Item.otherImages item = Some others ->
         ~ In p others)
      /\ (forall others, Item.otherImages item = Some others -> length others <= 1)).
Proof.
  intros item. split; [reflexivity|].
  apply (other_images_exclude_primary_and_are_capped 1 Examples.ike_page "Ike" item).
  reflexivity.
Defined.

Lemma literal_Some (s t : string) : literal s = Some t -> t = s.
Proof. unfold literal. destruct (Str.has_char Str.dquote s); congruence. Qed.

(** A source found by the image query contains the name or its lower
    case, so it is not empty when the name is not. *)
Lemma image_src_nonempty (name : string) (doc : document) (found : list string) :
  Str.nonempty name = true ->
  xpath_attr (image_path name) "src" doc = Return found ->
  forall c, In c found -> Str.nonempty c = true.
Proof.
  intros Hname. unfold xpath_attr, image_path.
  destruct (literal name) as [n|] eqn:Hn; [|discriminate].
  destruct (literal (Str.lower name)) as [lo|] eqn:Hlo; [|discriminate].
  apply literal_Some in Hn, Hlo. subst n lo.
  intros [= <-] c Hc. apply XPathFacts.in_getall_attr in Hc.
  destruct Hc as [l [m [_ [Hsel [Hhere Hattr]]]]].
  destruct l as [|[m' after] up]; [discriminate|].
  injection Hhere as ->.
  cbn [rev app sel] in Hsel. apply andb_true_iff in Hsel. destruct Hsel as [Hstep _].
  unfold step_holds in Hstep. cbn [step_test step_pred holds fst eval_sexp] in Hstep.
  rewrite Hattr in Hstep. apply andb_true_iff in Hstep. destruct Hstep as [_ Hor].
  apply orb_true_iff in Hor. destruct Hor as [H|H].
  - now apply (StrFacts.contains_nonempty c name).
  - apply (StrFacts.contains_nonempty c (Str.lower name)); [exact H|].
    now rewrite StrFacts.lower_nonempty.
Qed.

Lemma first_seen_all_seen (seen xs : list string) :
  (forall x, In x xs -> In x seen) -> first_seen seen xs = [].
Proof.
  intros H. destruct (first_seen seen xs) as [|y ys] eqn:E; [reflexivity|].
  assert (Hy : In y (first_seen seen xs)) by (rewrite E; now left).
  apply PyFacts.first_seen_In in Hy. destruct Hy as [Hin Hnot].
  now apply H in Hin.
Qed.

(** The field extractors leave the name and the image fields alone. *)
Lemma parse_appearances_keeps (doc : document) (i : Item.CharacterItem) :
  Item.name (parse_appearances doc i) = Item.name i
  /\ Item.primaryImage (parse_appearances doc i) = Item.primaryImage i
  /\ Item.otherImages (parse_appearances doc i) = Item.otherImages i.
Proof.
  unfold parse_appearances. destruct (Py.nonempty _); repeat split.
Qed.

Lemma parse_titles_keeps (doc : document) (i : Item.CharacterItem) :
  Item.name (parse_titles doc i) = Item.name i
  /\ Item.primaryImage (parse_titles doc i) = Item.primaryImage i
  /\ Item.otherImages (parse_titles doc i) = Item.otherImages i.
Proof.
  unfold parse_titles. destruct (Py.nonempty _); repeat split.
Qed.

Lemma parse_voice_actors_keeps (doc : document) (i : Item.CharacterItem) :
  Item.name (parse_voice_actors doc i) = Item.name i
  /\ Item.primaryImage (parse_voice_actors doc i) = Item.primaryImage i
  /\ Item.otherImages (parse_voice_actors doc i) = Item.otherImages i.
Proof.
  unfold parse_voice_actors.
  destruct (Py.nonempty (getall_text (voice_actor_path "English") doc));
    destruct (Py.nonempty (getall_text (voice_actor_path "Japanese") doc));
    repeat split.
Qed.

(** When the name is found and [__parse_images] returns, the assembler
    runs all five methods and the image fields of its item are those
    [__parse_images] has set. *)
Lemma parse_character_images (MAX : nat) (doc : document) (name : string)
  (i : Item.CharacterItem) :
  get (flat_map text_of (nodes_where heading_text doc)) = Some name ->
  Str.nonempty name = true ->
  parse_images MAX doc (Item.set_name name Item.empty) = Return i ->
  exists item,
    run (parse_character MAX doc)
    = (Return (Some item),
       [Call_parse_name; Call_parse_images; Call_parse_appearances;
        Call_parse_titles; Call_parse_voice_actors])
    /\ Item.name item = Item.name i
    /\ Item.primaryImage item = Item.primaryImage i
    /\ Item.otherImages item = Item.otherImages i.
Proof.
  intros Hname Hne Himg.
  exists (parse_voice_actors doc (parse_titles doc (parse_appearances doc i))).
  split.
  - unfold run, parse_character, bind, invoke, ret, lift.
    rewrite parse_name_spec, Hname, Hne. cbn [negb]. now rewrite Himg.
  - destruct (parse_voice_actors_keeps doc (parse_titles doc (parse_appearances doc i)))
      as [-> [-> ->]].
    destruct (parse_titles_keeps doc (parse_appearances doc i)) as [-> [-> ->]].
    apply parse_appearances_keeps.
Qed.

(** C5.  In a document whose candidate images are not empty and none of
    which is found in a displayed tab, the first candidate in document
    order becomes [primaryImage]; and when every candidate has the source
    of the first (one candidate once duplicates are gone), the field
    [otherImages] is absent. *)
Theorem first_candidate_becomes_primary
  (MAX : nat) (doc : document) (name c : string) (cs : list string) :
  get (flat_map text_of (nodes_where heading_text doc)) = Some name ->
  Str.nonempty name = true ->
  xpath_attr (image_path name) "src" doc = Return (c :: cs) ->
  xpath_attr (displayed_image_path name) "src" doc = Return [] ->
  exists item,
    run (parse_character MAX doc)
    = (Return (Some item),
       [Call_parse_name; Call_parse_images; Call_parse_appearances;
        Call_parse_titles; Call_parse_voice_actors])
    /\ Item.primaryImage item = Some (String.append BASE_URL c)
    /\ ((forall s, In s cs -> s = c) -> Item.otherImages item = None).
Proof.
  intros Hname Hne Hfound Hdisp.
  assert (Hc : Str.nonempty c = true).
  { apply (image_src_nonempty name doc (c :: cs) Hne Hfound). now left. }
  set (rest := first_seen [c] cs).
  set (i1 := Item.set_primaryImage (String.append BASE_URL c)
               (Item.set_name name Item.empty)).
  set (i2 := if Py.nonempty rest
             then Item.set_otherImages
                    (map (String.append BASE_URL) (firstn MAX rest)) i1
             else i1).
  assert (Himg : parse_images MAX doc (Item.set_name name Item.empty) = Return i2).
  { unfold parse_images. cbn [Item.name Item.set_name].
    rewrite Hdisp, Hfound, PyFacts.keys_fromkeys.
    cbn [get Py.truthy negb first_seen existsb app andb Py.nonempty].
    rewrite Hc, PyFacts.remove_head. reflexivity. }
  destruct (parse_character_images MAX doc name i2 Hname Hne Himg)
    as [item [Hrun [_ [Hp Ho]]]].
  exists item. split; [exact Hrun|]. split.
  - rewrite Hp. unfold i2. now destruct (Py.nonempty rest).
  - intros Hall. rewrite Ho. unfold i2, rest.
    rewrite first_seen_all_seen; [reflexivity|].
    intros x Hx. left. symmetry. now apply Hall.
Qed.

Lemma first_candidate_becomes_primary_witness :
  exists item,
    run (parse_character 2 Examples.reinhardt_page)
    = (Return (Some item),
       [Call_parse_name; Call_parse_images; Call_parse_appearances;
        Call_parse_titles; Call_parse_voice_actors])
    /\ Item.primaryImage item
       = Some (String.append BASE_URL "/thracia776-reinhardt.jpg")
    /\ ((forall s, In s ["/thracia776-reinhardt.jpg"] -> s = "/thracia776-reinhardt.jpg")
        -> Item.otherImages item = None).
Proof.
  apply (first_candidate_becomes_primary 2 Examples.reinhardt_page "Reinhardt"
           "/thracia776-reinhardt.jpg" ["/thracia776-reinhardt.jpg"]);
    reflexivity.
Defined.

Lemma first_seen_app (seen a b : list string) :
  first_seen seen (a ++ b)
  = first_seen seen a ++ first_seen (seen ++ first_seen seen a) b.
Proof.
  revert seen. induction a as [|x a IH]; intros seen; simpl.
  - now rewrite app_nil_r.
  - destruct (existsb (String.eqb x) seen); [apply IH|].
    simpl. rewrite IH. now rewrite <- app_assoc.
Qed.

(** [list(OrderedDict.fromkeys(found))] is [found] without repeats and in
    first-seen order: it has no duplicates and the same elements; a source
    that occurs a second time adds nothing; and a source stands right
    after the distinct sources that come before its first occurrence. *)
Lemma fromkeys_first_seen (found : list string) :
  let image_links := Py.keys (Py.fromkeys found) in
  image_links = first_seen [] found
  /\ NoDup image_links
  /\ (forall s, In s image_links <-> In s found)
  /\ (forall pre s mid post,
        found = pre ++ s :: mid ++ s :: post ->
        image_links = Py.keys (Py.fromkeys (pre ++ s :: mid ++ post)))
  /\ (forall pre s post,
        found = pre ++ s :: post -> ~ In s pre ->
        exists later,
          image_links = Py.keys (Py.fromkeys pre) ++ s :: later /\ ~ In s later).
Proof.
  cbn zeta. rewrite PyFacts.keys_fromkeys. split; [reflexivity|]. split.
  { apply PyFacts.first_seen_NoDup. }
  split.
  { intros s. rewrite PyFacts.first_seen_In. simpl. tauto. }
  split.
  - intros pre s mid post ->. rewrite PyFacts.keys_fromkeys.
    replace (pre ++ s :: mid ++ s :: post) with ((pre ++ s :: mid) ++ s :: post)
      by (rewrite <- app_assoc; reflexivity).
    replace (pre ++ s :: mid ++ post) with ((pre ++ s :: mid) ++ post)
      by (rewrite <- app_assoc; reflexivity).
    apply PyFacts.first_seen_repeat. right. apply in_or_app. right. now left.
  - intros pre s post -> Hnot. rewrite PyFacts.keys_fromkeys, first_seen_app.
    cbn [app first_seen].
    destruct (existsb (String.eqb s) (first_seen [] pre)) eqn:E.
    + apply PyFacts.mem_In in E. apply PyFacts.first_seen_In in E. tauto.
    + eexists. split; [reflexivity|].
      rewrite PyFacts.first_seen_In, in_app_iff. simpl. tauto.
Qed.

Lemma collect_titles_spec (items : list node) (acc : list string) :
  collect_titles items acc
  = acc ++ filter Str.nonempty (map BeautifulSoup.get_text items).
Proof.
  revert acc. induction items as [|n items IH]; intros acc; simpl.
  - now rewrite app_nil_r.
  - rewrite IH. destruct (Str.nonempty (BeautifulSoup.get_text n)); [|reflexivity].
    now rewrite <- app_assoc.
Qed.

Lemma parse_titles_spec (doc : document) (item : Item.CharacterItem) :
  let items := Py.or_else (nodes_where (cell_list_item "Title") doc)
                          (nodes_where (cell_paragraph "Title") doc) in
  let titles := filter Str.nonempty (map BeautifulSoup.get_text items) in
  parse_titles doc item
  = if Py.nonempty titles then Item.set_titles titles item else item.
Proof.
  cbn zeta. unfold parse_titles.
  rewrite (XPathFacts.getall_nodes_where titles_li_path (cell_list_item "Title") doc
             QueryFacts.sel_titles_li).
  rewrite (XPathFacts.getall_nodes_where titles_p_path (cell_paragraph "Title") doc
             QueryFacts.sel_titles_p).
  now rewrite collect_titles_spec.
Qed.






(** C10.  When no data cell of a Title row holds a list item, at any
    depth, the titles are the non-empty texts of the paragraphs that are
    children of such a cell, and of no other paragraph. *)
Theorem titles_fallback_takes_direct_paragraphs
  (doc : document) (item : Item.CharacterItem) :
  nodes_where (cell_list_item "Title") doc = [] ->
  let titles :=
    filter Str.nonempty
           (map BeautifulSoup.get_text (nodes_where (cell_paragraph "Title") doc)) in
  parse_titles doc item
  = if Py.nonempty titles then Item.set_titles titles item else item.
Proof.
  intros Hli. cbn zeta. rewrite parse_titles_spec. now rewrite Hli.
Qed.

Lemma titles_fallback_takes_direct_paragraphs_witness :
  nodes_where (cell_list_item "Title") Examples.paragraphs_page = []
  /\ nodes_where (cell_paragraph "Title") Examples.paragraphs_page
     = [Elem "p" [] [Text "Radiant Hero"]]
  /\ parse_titles Examples.paragraphs_page Item.empty
     = Item.set_titles ["Radiant Hero"] Item.empty.
Proof.
  split; [reflexivity|]. split; [reflexivity|].
  exact (titles_fallback_takes_direct_paragraphs
           Examples.paragraphs_page Item.empty eq_refl).
Defined.


Lemma parse_voice_actors_spec (doc : document) (item : Item.CharacterItem) :
  let english := flat_map text_of (nodes_where (annotated_link_text "English") doc) in
  let japanese := flat_map text_of (nodes_where (annotated_link_text "Japanese") doc) in
  let voice_actors :=
    (if Py.nonempty english then [("english", english)] else [])
    ++ (if Py.nonempty japanese then [("japanese", japanese)] else []) in
  parse_voice_actors doc item
  = if Py.nonempty voice_actors then Item.set_voiceActors voice_actors item else item.
Proof.
  cbn zeta. unfold parse_voice_actors.
  rewrite (XPathFacts.getall_text_where (voice_actor_path "English")
             (annotated_link_text "English") doc (QueryFacts.sel_voice "English")).
  rewrite (XPathFacts.getall_text_where (voice_actor_path "Japanese")
             (annotated_link_text "Japanese") doc (QueryFacts.sel_voice "Japanese")).
  destruct (Py.nonempty (flat_map text_of (nodes_where (annotated_link_text "English") doc)));
    destruct (Py.nonempty (flat_map text_of (nodes_where (annotated_link_text "Japanese") doc)));
    reflexivity.
Qed.

(** C3, as amended.  For each of the languages English and Japanese the
    extractor collects, in document order, the text nodes that are
    children of the links in the data cells of the Voice rows which have,
    anywhere among the siblings after them, a [small] element with a text
    node containing the language; the lists go under the keys [english]
    and [japanese]; a language without a match gets no key, and without
    any key the field [voiceActors] is not set. *)
Theorem voice_actors_by_following_annotation
  (doc : document) (item : Item.CharacterItem) :
  let english := flat_map text_of (nodes_where (annotated_link_text "English") doc) in
  let japanese := flat_map text_of (nodes_where (annotated_link_text "Japanese") doc) in
  parse_voice_actors doc item
  = match english, japanese with
    | [], [] => item
    | _ :: _, [] => Item.set_voiceActors [("english", english)] item
    | [], _ :: _ => Item.set_voiceActors [("japanese", japanese)] item
    | _ :: _, _ :: _ =>
        Item.set_voiceActors [("english", english); ("japanese", japanese)] item
    end.
Proof.
  cbn zeta. rewrite parse_voice_actors_spec.
  destruct (flat_map text_of (nodes_where (annotated_link_text "English") doc));
    destruct (flat_map text_of (nodes_where (annotated_link_text "Japanese") doc));
    reflexivity.
Qed.

(** C3 as stated fails: in [voices_page] the link of Akio Otsuka is
    followed at once by the Japanese annotation and only later by the
    English one, yet the extractor lists him under [english] too. *)
Lemma voice_actors_not_only_immediately_annotated :
  flat_map text_of
    (flat_map children
       (nodes_where (immediately_annotated_link "English") Examples.voices_page))
  = ["David Lodge"]
  /\ Item.voiceActors (parse_voice_actors Examples.voices_page Item.empty)
     = Some [("english", ["Akio Otsuka"; "David Lodge"]); ("japanese", ["Akio Otsuka"])]
  /\ Item.voiceActors (parse_voice_actors Examples.voices_page Item.empty)
     <> Some [("english",
               flat_map text_of
                 (flat_map children
                    (nodes_where (immediately_annotated_link "English")
                                 Examples.voices_page)));
              ("japanese",
               flat_map text_of
                 (flat_map children
                    (nodes_where (immediately_annotated_link "Japanese")
                                 Examples.voices_page)))].
Proof.
  split; [reflexivity|]. split; [reflexivity|]. vm_compute. discriminate.
Qed.

(** C4, as amended.  [parse] yields one request for a detail page per
    [href] attribute of the anchors inside the list items of the category
    group of the pages container, in document order and with the base URL
    in front, and after them at most one request for the next page: its
    link is the first [href] among the anchors of the pages container
    whose first text node (a child of the anchor) contains the word next,
    and it is requested when it is not empty, whatever the detail links
    are; without such an anchor there is no request for a next page. *)
Theorem parse_yields_detail_and_next_requests (doc : document) :
  let character_links := flat_map (attr_of "href") (nodes_where category_anchor doc) in
  let next_page_link :=
    get (flat_map (attr_of "href") (nodes_where next_anchor doc)) in
  let next_requests :=
    match next_page_link with
    | Some link =>
        if Str.nonempty link
        then [MkRequest (String.append BASE_URL link) Cb_parse]
        else []
    | None => []
    end in
  parse doc
  = map (fun link => MkRequest (String.append BASE_URL link) Cb_parse_character)
        character_links
    ++ next_requests
  /\ length next_requests <= 1
  /\ (nodes_where next_anchor doc = [] -> next_requests = []).
Proof.
  cbn zeta. split; [|split].
  - unfold parse.
    rewrite (XPathFacts.getall_attr_where character_links_path category_anchor
               "href" doc QueryFacts.sel_character_links).
    now rewrite (XPathFacts.getall_attr_where next_page_path next_anchor
                   "href" doc QueryFacts.sel_next_page).
  - destruct (get _) as [link|]; [destruct (Str.nonempty link)|]; simpl; lia.
  - intros ->. reflexivity.
Qed.

(** C4 as stated fails: [listing_page] has, in its pages container, an
    anchor to [/page2] whose visible text is [go to the next page] and
    whose second text node is [ next page]; its first text node is
    [go to ], so [parse] requests the two detail pages and no next page. *)
Lemma next_anchor_with_later_text_is_missed :
  flat_map (attr_of "href")
           (nodes_where next_anchor_by_visible_text Examples.listing_page)
  = ["/page2"]
  /\ flat_map (attr_of "href")
              (nodes_where next_anchor_by_some_text Examples.listing_page)
     = ["/page2"]
  /\ parse Examples.listing_page
     = [ MkRequest "https://fireemblemwiki.org/Byleth" Cb_parse_character;
         MkRequest "https://fireemblemwiki.org/Edelgard" Cb_parse_character ]
  /\ ~ In (MkRequest (String.append BASE_URL "/page2") Cb_parse)
          (parse Examples.listing_page).
Proof.
  split; [reflexivity|]. split; [reflexivity|]. split; [reflexivity|].
  vm_compute. intros [H|[H|[]]]; discriminate.
Qed.

Lemma lower_keeps_dquote (s : string) :
  Str.has_char Str.dquote (Str.lower s) = Str.has_char Str.dquote s.
Proof.
  induction s as [|c s IH]; [reflexivity|].
  cbn [Str.lower Str.has_char]. rewrite IH. f_equal.
  destruct c as [[] [] [] [] [] [] [] []]; reflexivity.
Qed.

(** The query of the displayed tab finds nothing that the image query
    does not find. *)
Lemma displayed_among_found (name : string) (doc : document)
  (displayed found : list string) :
  xpath_attr (displayed_image_path name) "src" doc = Return displayed ->
  xpath_attr (image_path name) "src" doc = Return found ->
  incl displayed found.
Proof.
  unfold displayed_image_path, xpath_attr, image_path.
  destruct (literal name) as [n|]; [|discriminate].
  destruct (literal (Str.lower name)) as [lo|]; [|discriminate].
  intros [= <-] [= <-] v Hv.
  apply XPathFacts.in_getall_attr in Hv. apply XPathFacts.in_getall_attr.
  destruct Hv as [l [m [Hl [Hsel Hrest]]]]. exists l, m. split; [exact Hl|].
  split; [|exact Hrest].
  cbn [rev app] in Hsel |- *.
  refine (XPathFacts.sel_drop_outer _ _ [_] _ l Hsel). reflexivity.
Qed.

(** For a name without a double quote [__parse_images] returns: its two
    queries are well formed, and the link it removes from [image_links]
    is one of them. *)
Lemma parse_images_returns (MAX : nat) (doc : document) (name : string) :
  Str.has_char Str.dquote name = false ->
  exists item, parse_images MAX doc (Item.set_name name Item.empty) = Return item.
Proof.
  intros Hq.
  assert (Hpath : exists p, image_path name = Some p).
  { unfold image_path, literal. rewrite lower_keeps_dquote, Hq. now eexists. }
  destruct Hpath as [p Hp].
  pose proof (displayed_among_found name doc) as Hincl.
  unfold parse_images. cbn [Item.name Item.set_name].
  unfold displayed_image_path in *. rewrite Hp in *. cbn [xpath_attr] in *.
  specialize (Hincl _ _ eq_refl eq_refl).
  set (displayed := getall_attr _ "src" doc) in *.
  set (found := getall_attr p "src" doc) in *.
  assert (Hlinks : forall s, In s (Py.keys (Py.fromkeys found)) <-> In s found).
  { intros s. rewrite PyFacts.keys_fromkeys, PyFacts.first_seen_In. simpl. tauto. }
  set (links := Py.keys (Py.fromkeys found)) in *.
  assert (Hrm : forall link,
             In link links -> exists rest, Py.remove link links = Some rest).
  { intros link. apply PyFacts.remove_In. }
  destruct displayed as [|d ds]; cbn [get Py.truthy negb andb].
  - destruct links as [|l ls]; cbn [Py.nonempty get]; [now eexists|].
    destruct (Str.nonempty l); [|now eexists].
    destruct (Hrm l (or_introl eq_refl)) as [rest ->]. now eexists.
  - assert (Hd : In d links) by (apply Hlinks, Hincl; now left).
    destruct (Str.nonempty d) eqn:Ed; cbn [negb andb].
    + rewrite Ed. destruct (Hrm d Hd) as [rest ->]. now eexists.
    + destruct links as [|l ls]; [contradiction|]. cbn [Py.nonempty get].
      destruct (Str.nonempty l); [|now eexists].
      destruct (Hrm l (or_introl eq_refl)) as [rest ->]. now eexists.
Qed.

(** C9.  On a page whose first heading holds a double quote, the name
    cuts the string literals of the image query short and
    [response.xpath] raises: image selection does raise. *)
Theorem parse_images_raises_on_quoted_name (MAX : nat) :
  Str.has_char Str.dquote Examples.quoted_name = true
  /\ parse_images MAX Examples.quoted_page
                  (Item.set_name Examples.quoted_name Item.empty)
     = Raise (ValueError InvalidXPath)
  /\ run (parse_character MAX Examples.quoted_page)
     = (Raise (ValueError InvalidXPath), [Call_parse_name; Call_parse_images]).
Proof.
  split; [reflexivity|]. split; reflexivity.
Qed.

(** ** Further properties of the assembler *)

(** What a returned item tells about the run that produced it. *)
Lemma parse_character_returns_inv (MAX : nat) (doc : document)
  (item : Item.CharacterItem) (log : list call) :
  run (parse_character MAX doc) = (Return (Some item), log) ->
  exists name i,
    get (flat_map text_of (nodes_where heading_text doc)) = Some name
    /\ Str.nonempty name = true
    /\ parse_images MAX doc (Item.set_name name Item.empty) = Return i
    /\ item = parse_voice_actors doc (parse_titles doc (parse_appearances doc i))
    /\ log = [Call_parse_name; Call_parse_images; Call_parse_appearances;
              Call_parse_titles; Call_parse_voice_actors].
Proof.
  unfold run, parse_character, bind, invoke, ret, lift. rewrite parse_name_spec.
  destruct (get (flat_map text_of (nodes_where heading_text doc))) as [name|];
    [|discriminate].
  destruct (Str.nonempty name) eqn:Hne; [|discriminate]. cbn [negb].
  destruct (parse_images MAX doc (Item.set_name name Item.empty)) as [i|e] eqn:Hi;
    [|discriminate].
  intros [= <- <-]. exists name, i. repeat split; assumption.
Qed.

(** [__parse_images] writes the two image fields only. *)
Lemma parse_images_frame (MAX : nat) (doc : document) (i i' : Item.CharacterItem) :
  parse_images MAX doc i = Return i' ->
  Item.name i' = Item.name i
  /\ Item.titles i' = Item.titles i
  /\ Item.appearances i' = Item.appearances i
  /\ Item.voiceActors i' = Item.voiceActors i.
Proof.
  unfold parse_images. destruct (Item.name i) as [name|] eqn:Hn; [|discriminate].
  destruct (xpath_attr (displayed_image_path name) "src" doc) as [displayed|e];
    [|discriminate].
  destruct (xpath_attr (image_path name) "src" doc) as [found|e]; [|discriminate].
  set (links := Py.keys (Py.fromkeys found)).
  destruct (if negb (Py.truthy (get displayed)) && Py.nonempty links
            then get links else get displayed) as [link|].
  - destruct (Str.nonempty link).
    + destruct (Py.remove link links) as [rest|]; [|discriminate].
      intros [= <-]. destruct (Py.nonempty rest); repeat split; cbn; congruence.
    + intros [= <-]. destruct (Py.nonempty links); repeat split; cbn; congruence.
  - intros [= <-]. destruct (Py.nonempty links); repeat split; cbn; congruence.
Qed.

Lemma parse_appearances_frame (doc : document) (i : Item.CharacterItem) :
  Item.titles (parse_appearances doc i) = Item.titles i
  /\ Item.voiceActors (parse_appearances doc i) = Item.voiceActors i.
Proof. unfold parse_appearances. destruct (Py.nonempty _); split; reflexivity. Qed.

Lemma parse_titles_frame (doc : document) (i : Item.CharacterItem) :
  Item.appearances (parse_titles doc i) = Item.appearances i
  /\ Item.voiceActors (parse_titles doc i) = Item.voiceActors i.
Proof. unfold parse_titles. destruct (Py.nonempty _); split; reflexivity. Qed.

Lemma parse_voice_actors_frame (doc : document) (i : Item.CharacterItem) :
  Item.titles (parse_voice_actors doc i) = Item.titles i
  /\ Item.appearances (parse_voice_actors doc i) = Item.appearances i.
Proof.
  rewrite parse_voice_actors_spec. cbn zeta.
  destruct (Py.nonempty (_ ++ _)); split; reflexivity.
Qed.

(** X1.  An item returned by [parse_character] has a name: the first text
    node under the first heading, taken as it is, and not empty; and all
    five methods were invoked, in the order of the source. *)
Theorem returned_item_has_the_heading_name
  (MAX : nat) (doc : document) (item : Item.CharacterItem) (log : list call) :
  run (parse_character MAX doc) = (Return (Some item), log) ->
  exists name,
    Item.name item = Some name
    /\ Str.nonempty name = true
    /\ get (flat_map text_of (nodes_where heading_text doc)) = Some name
    /\ log = [Call_parse_name; Call_parse_images; Call_parse_appearances;
              Call_parse_titles; Call_parse_voice_actors].
Proof.
  intros H. apply parse_character_returns_inv in H.
  destruct H as [name [i [Hname [Hne [Himg [-> Hlog]]]]]].
  exists name. repeat split; try assumption.
  destruct (parse_voice_actors_keeps doc (parse_titles doc (parse_appearances doc i)))
    as [-> _].
  destruct (parse_titles_keeps doc (parse_appearances doc i)) as [-> _].
  destruct (parse_appearances_keeps doc i) as [-> _].
  destruct (parse_images_frame MAX doc _ i Himg) as [-> _]. reflexivity.
Qed.

Lemma returned_item_has_the_heading_name_witness :
  exists name,
    Item.name (Item.Build (Some "Ike")
                 (Some "https://fireemblemwiki.org/path-of-radiance-ike.png")
                 (Some ["https://fireemblemwiki.org/radiant-dawn-ike.jpg";
                        "https://fireemblemwiki.org/fire-emblem-heroes-ike.jpg"])
                 None None None) = Some name
    /\ Str.nonempty name = true
    /\ get (flat_map text_of (nodes_where heading_text Examples.ike_page)) = Some name
    /\ [Call_parse_name; Call_parse_images; Call_parse_appearances;
        Call_parse_titles; Call_parse_voice_actors]
       = [Call_parse_name; Call_parse_images; Call_parse_appearances;
          Call_parse_titles; Call_parse_voice_actors].
Proof.
  apply (returned_item_has_the_heading_name 5 Examples.ike_page). reflexivity.
Defined.

(** X2.  On a page whose heading text holds no double quote,
    [parse_character] does not raise: it returns [None] after
    [__parse_name] alone, or an item after all five methods. *)
Theorem parse_character_returns_without_quote (MAX : nat) (doc : document) :
  (forall name,
     get (flat_map text_of (nodes_where heading_text doc)) = Some name ->
     Str.has_char Str.dquote name = false) ->
  run (parse_character MAX doc) = (Return None, [Call_parse_name])
  \/ exists item,
       run (parse_character MAX doc)
       = (Return (Some item),
          [Call_parse_name; Call_parse_images; Call_parse_appearances;
           Call_parse_titles; Call_parse_voice_actors]).
Proof.
  intros Hq. unfold run, parse_character, bind, invoke, ret, lift.
  rewrite parse_name_spec.
  destruct (get (flat_map text_of (nodes_where heading_text doc))) as [name|];
    [|now left].
  destruct (Str.nonempty name); [|now left]. right. cbn [negb].
  destruct (parse_images_returns MAX doc name (Hq name eq_refl)) as [i ->].
  now eexists.
Qed.

Lemma parse_character_returns_without_quote_witness :
  run (parse_character 5 Examples.voices_page) = (Return None, [Call_parse_name])
  \/ exists item,
       run (parse_character 5 Examples.voices_page)
       = (Return (Some item),
          [Call_parse_name; Call_parse_images; Call_parse_appearances;
           Call_parse_titles; Call_parse_voice_actors]).
Proof.
  apply (parse_character_returns_without_quote 5 Examples.voices_page).
  intros name H. vm_compute in H. injection H as <-. reflexivity.
Defined.

(** X3.  Each method writes its own fields and no other: image selection
    the two image fields, and each field extractor its one field. *)
Theorem methods_write_their_own_fields
  (MAX : nat) (doc : document) (i i' : Item.CharacterItem) :
  parse_images MAX doc i = Return i' ->
  (Item.name i' = Item.name i
   /\ Item.titles i' = Item.titles i
   /\ Item.appearances i' = Item.appearances i
   /\ Item.voiceActors i' = Item.voiceActors i)
  /\ (Item.name (parse_appearances doc i) = Item.name i
      /\ Item.primaryImage (parse_appearances doc i) = Item.primaryImage i
      /\ Item.otherImages (parse_appearances doc i) = Item.otherImages i
      /\ Item.titles (parse_appearances doc i) = Item.titles i
      /\ Item.voiceActors (parse_appearances doc i) = Item.voiceActors i)
  /\ (Item.name (parse_titles doc i) = Item.name i
      /\ Item.primaryImage (parse_titles doc i) = Item.primaryImage i
      /\ Item.otherImages (parse_titles doc i) = Item.otherImages i
      /\ Item.appearances (parse_titles doc i) = Item.appearances i
      /\ Item.voiceActors (parse_titles doc i) = Item.voiceActors i)
  /\ (Item.name (parse_voice_actors doc i) = Item.name i
      /\ Item.primaryImage (parse_voice_actors doc i) = Item.primaryImage i
      /\ Item.otherImages (parse_voice_actors doc i) = Item.otherImages i
      /\ Item.titles (parse_voice_actors doc i) = Item.titles i
      /\ Item.appearances (parse_voice_actors doc i) = Item.appearances i).
Proof.
  intros H. split; [exact (parse_images_frame MAX doc i i' H)|].
  pose proof (parse_appearances_keeps doc i). pose proof (parse_appearances_frame doc i).
  pose proof (parse_titles_keeps doc i). pose proof (parse_titles_frame doc i).
  pose proof (parse_voice_actors_keeps doc i).
  pose proof (parse_voice_actors_frame doc i). tauto.
Qed.

Lemma methods_write_their_own_fields_witness :
  Item.name (parse_titles Examples.paragraphs_page
               (Item.set_name "Ike" Item.empty)) = Some "Ike"
  /\ Item.titles (parse_titles Examples.paragraphs_page
                    (Item.set_name "Ike" Item.empty)) = Some ["Radiant Hero"].
Proof.
  split; [|reflexivity].
  destruct (methods_write_their_own_fields 5 Examples.paragraphs_page
              (Item.set_name "Ike" Item.empty) (Item.set_name "Ike" Item.empty)
              eq_refl) as [_ [_ [[H _] _]]].
  exact H.
Defined.

(** ** Further properties of image selection *)

Lemma remove_keeps_NoDup (x : string) (l l' : list string) :
  NoDup l -> Py.remove x l = Some l' -> NoDup l'.
Proof.
  revert l'. induction l as [|y l IH]; intros l' Hnd; simpl; [discriminate|].
  inversion Hnd as [|? ? Hy Hnd']; subst.
  destruct (String.eqb y x); [now intros [= <-]|].
  destruct (Py.remove x l) as [r|] eqn:Er; [|discriminate].
  intros [= <-]. constructor; [|now apply IH].
  intros Hin. apply Hy.
  destruct (PyFacts.remove_NoDup x l r Hnd' Er) as [_ Hincl]. now apply Hincl.
Qed.

Lemma firstn_NoDup {A : Type} (n : nat) (l : list A) : NoDup l -> NoDup (firstn n l).
Proof.
  revert n. induction l as [|x l IH]; intros [|n] Hnd; simpl; try constructor.
  - inversion Hnd; subst. intros Hin. apply firstn_incl in Hin. contradiction.
  - inversion Hnd; subst. now apply IH.
Qed.

Lemma map_base_NoDup (l : list string) :
  NoDup l -> NoDup (map (String.append BASE_URL) l).
Proof.
  induction 1 as [|x l Hx Hnd IH]; simpl; constructor; [|exact IH].
  intros Hin. now apply in_map_base in Hin.
Qed.

Lemma image_links_In (found : list string) (s : string) :
  In s (Py.keys (Py.fromkeys found)) <-> In s found.
Proof. rewrite PyFacts.keys_fromkeys, PyFacts.first_seen_In. simpl. tauto. Qed.

(** The image fields [__parse_images] leaves in a fresh item: the other
    images are taken from a duplicate-free list [rest] of candidates, and
    the primary image, when there is one, is a candidate outside [rest]. *)
Lemma parse_images_inv (MAX : nat) (doc : document) (name : string)
  (item : Item.CharacterItem) :
  parse_images MAX doc (Item.set_name name Item.empty) = Return item ->
  exists found rest,
    xpath_attr (image_path name) "src" doc = Return found
    /\ NoDup rest
    /\ incl rest found
    /\ Item.otherImages item
       = (if Py.nonempty rest
          then Some (map (String.append BASE_URL) (firstn MAX rest))
          else None)
    /\ (Item.primaryImage item = None
        \/ exists link,
             Item.primaryImage item = Some (String.append BASE_URL link)
             /\ In link found /\ ~ In link rest).
Proof.
  unfold parse_images. cbn [Item.name Item.set_name].
  destruct (xpath_attr (displayed_image_path name) "src" doc) as [displayed|e] eqn:Hd;
    [|discriminate].
  destruct (xpath_attr (image_path name) "src" doc) as [found|e] eqn:Hf;
    [|discriminate].
  pose proof (image_links_NoDup found) as Hnd.
  pose proof (image_links_In found) as Hin.
  set (links := Py.keys (Py.fromkeys found)) in *.
  assert (Hlinks : incl links found) by (intros s; apply Hin).
  destruct (if negb (Py.truthy (get displayed)) && Py.nonempty links
            then get links else get displayed) as [link|].
  - destruct (Str.nonempty link).
    + destruct (Py.remove link links) as [rest|] eqn:Hrm; [|discriminate].
      destruct (PyFacts.remove_NoDup link links rest Hnd Hrm) as [Hnot Hincl].
      intros [= <-]. exists found, rest.
      split; [reflexivity|]. split; [exact (remove_keeps_NoDup _ _ _ Hnd Hrm)|].
      split; [intros s Hs; now apply Hlinks, Hincl|].
      split; [now destruct (Py.nonempty rest)|].
      right. exists link. split; [now destruct (Py.nonempty rest)|].
      split; [|exact Hnot].
      apply Hin. clear -Hrm. revert rest Hrm.
      induction links as [|y l IH]; intros rest; simpl; [discriminate|].
      destruct (String.eqb y link) eqn:E.
      * apply String.eqb_eq in E. now left.
      * destruct (Py.remove link l) as [r|]; [|discriminate]. intros _. right.
        now apply (IH r).
    + intros [= <-]. exists found, links.
      split; [reflexivity|]. split; [exact Hnd|]. split; [exact Hlinks|].
      split; [now destruct (Py.nonempty links)|].
      left. now destruct (Py.nonempty links).
  - intros [= <-]. exists found, links.
    split; [reflexivity|]. split; [exact Hnd|]. split; [exact Hlinks|].
    split; [now destruct (Py.nonempty links)|].
    left. now destruct (Py.nonempty links).
Qed.

(** X4.  When the image query finds nothing, [__parse_images] leaves the
    item as it was: neither [primaryImage] nor [otherImages] is set. *)
Theorem no_candidate_no_image_field (MAX : nat) (doc : document) (name : string) :
  xpath_attr (image_path name) "src" doc = Return [] ->
  parse_images MAX doc (Item.set_name name Item.empty)
  = Return (Item.set_name name Item.empty).
Proof.
  intros Hf.
  assert (Hd : xpath_attr (displayed_image_path name) "src" doc = Return []).
  { pose proof (displayed_among_found name doc) as Hincl.
    unfold displayed_image_path, xpath_attr in *.
    destruct (image_path name) as [p|]; [|discriminate].
    specialize (Hincl _ _ eq_refl Hf). f_equal.
    set (displayed := getall_attr (_ :: p) "src" doc) in *.
    destruct displayed as [|d ds]; [reflexivity|].
    destruct (Hincl d (or_introl eq_refl)). }
  unfold parse_images. cbn [Item.name Item.set_name]. now rewrite Hd, Hf.
Qed.

Lemma no_candidate_no_image_field_witness :
  parse_images 5 Examples.voices_page (Item.set_name "Jeralt" Item.empty)
  = Return (Item.set_name "Jeralt" Item.empty).
Proof.
  apply (no_candidate_no_image_field 5 Examples.voices_page "Jeralt"). reflexivity.
Defined.

(** X5.  When the query of the displayed tab finds an image, the first
    one it finds becomes [primaryImage], wherever it stands among the
    candidates; [otherImages] are the first [MAX_NUM_OTHER_IMAGES] of the
    remaining candidates, and the field is absent when none remains. *)
Theorem displayed_image_becomes_primary
  (MAX : nat) (doc : document) (name d : string) (ds found : list string) :
  Str.nonempty name = true ->
  xpath_attr (displayed_image_path name) "src" doc = Return (d :: ds) ->
  xpath_attr (image_path name) "src" doc = Return found ->
  exists rest,
    Py.remove d (Py.keys (Py.fromkeys found)) = Some rest
    /\ parse_images MAX doc (Item.set_name name Item.empty)
       = Return
           (let item := Item.set_primaryImage (String.append BASE_URL d)
                          (Item.set_name name Item.empty) in
            if Py.nonempty rest
            then Item.set_otherImages
                   (map (String.append BASE_URL) (firstn MAX rest)) item
            else item).
Proof.
  intros Hne Hd Hf.
  assert (Hin : In d found).
  { apply (displayed_among_found name doc (d :: ds) found Hd Hf). now left. }
  assert (Hdne : Str.nonempty d = true)
    by exact (image_src_nonempty name doc found Hne Hf d Hin).
  destruct (PyFacts.remove_In d (Py.keys (Py.fromkeys found))) as [rest Hrm].
  { now apply image_links_In. }
  exists rest. split; [exact Hrm|].
  unfold parse_images. cbn [Item.name Item.set_name]. rewrite Hd, Hf.
  cbn [get Py.truthy]. rewrite Hdne. cbn [negb andb]. rewrite Hdne, Hrm.
  reflexivity.
Qed.

Lemma displayed_image_becomes_primary_witness :
  exists rest,
    Py.remove "/path-of-radiance-ike.png"
      (Py.keys (Py.fromkeys ["/path-of-radiance-ike.png"; "/radiant-dawn-ike.jpg";
                             "/fire-emblem-heroes-ike.jpg"])) = Some rest
    /\ parse_images 5 Examples.ike_page (Item.set_name "Ike" Item.empty)
       = Return
           (let item := Item.set_primaryImage
                          (String.append BASE_URL "/path-of-radiance-ike.png")
                          (Item.set_name "Ike" Item.empty) in
            if Py.nonempty rest
            then Item.set_otherImages
                   (map (String.append BASE_URL) (firstn 5 rest)) item
            else item).
Proof.
  apply (displayed_image_becomes_primary 5 Examples.ike_page "Ike"
           "/path-of-radiance-ike.png" []); reflexivity.
Defined.

(** X6.  A present [otherImages] is empty exactly when
    [MAX_NUM_OTHER_IMAGES] is zero: the field is set on account of the
    candidates left, before they are cut to the bound. *)
Theorem other_images_empty_only_without_room
  (MAX : nat) (doc : document) (name : string) (item : Item.CharacterItem)
  (others : list string) :
  parse_images MAX doc (Item.set_name name Item.empty) = Return item ->
  Item.otherImages item = Some others ->
  (others = [] <-> MAX = 0).
Proof.
  intros H Ho. apply parse_images_inv in H.
  destruct H as [found [rest [_ [_ [_ [Hoth _]]]]]]. rewrite Ho in Hoth.
  destruct rest as [|r rest]; [discriminate|]. cbn [Py.nonempty] in Hoth.
  injection Hoth as ->. destruct MAX as [|m]; simpl; split; try reflexivity;
    discriminate.
Qed.

Lemma other_images_empty_only_without_room_witness :
  parse_images 0 Examples.ike_page (Item.set_name "Ike" Item.empty)
  = Return (Item.Build (Some "Ike")
              (Some "https://fireemblemwiki.org/path-of-radiance-ike.png")
              (Some []) None None None)
  /\ (@nil string = [] <-> 0 = 0).
Proof.
  split; [reflexivity|].
  apply (other_images_empty_only_without_room 0 Examples.ike_page "Ike"
           (Item.Build (Some "Ike")
              (Some "https://fireemblemwiki.org/path-of-radiance-ike.png")
              (Some []) None None None) []); reflexivity.
Defined.

(** X7.  The image URLs of an item are candidates with the base URL in
    front: [otherImages] holds no URL twice, each of its URLs and the
    [primaryImage] come from a source the image query has found. *)
Theorem image_urls_are_distinct_candidates
  (MAX : nat) (doc : document) (name : string) (item : Item.CharacterItem) :
  parse_images MAX doc (Item.set_name name Item.empty) = Return item ->
  exists found,
    xpath_attr (image_path name) "src" doc = Return found
    /\ (forall others,
          Item.otherImages item = Some others ->
          NoDup others
          /\ forall u, In u others ->
                       exists s, u = String.append BASE_URL s /\ In s found)
    /\ (forall p,
          Item.primaryImage item = Some p ->
          exists s, p = String.append BASE_URL s /\ In s found).
Proof.
  intros H. apply parse_images_inv in H.
  destruct H as [found [rest [Hf [Hnd [Hincl [Hoth Hprim]]]]]].
  exists found. split; [exact Hf|]. split.
  - intros others Ho. rewrite Ho in Hoth.
    destruct (Py.nonempty rest); [|discriminate]. injection Hoth as ->. split.
    + apply map_base_NoDup, firstn_NoDup, Hnd.
    + intros u Hu. apply in_map_iff in Hu. destruct Hu as [s [<- Hs]].
      exists s. split; [reflexivity|]. now apply Hincl, (firstn_incl MAX rest).
  - intros p Hp. destruct Hprim as [Hnone|[link [Hl [Hin _]]]]; [congruence|].
    rewrite Hp in Hl. injection Hl as ->. now exists link.
Qed.

Lemma image_urls_are_distinct_candidates_witness :
  exists found,
    xpath_attr (image_path "Ike") "src" Examples.ike_page = Return found
    /\ (forall others,
          Some ["https://fireemblemwiki.org/radiant-dawn-ike.jpg"] = Some others ->
          NoDup others
          /\ forall u, In u others ->
                       exists s, u = String.append BASE_URL s /\ In s found)
    /\ (forall p,
          Some "https://fireemblemwiki.org/path-of-radiance-ike.png" = Some p ->
          exists s, p = String.append BASE_URL s /\ In s found).
Proof.
  apply (image_urls_are_distinct_candidates 1 Examples.ike_page "Ike"
           (Item.Build (Some "Ike")
              (Some "https://fireemblemwiki.org/path-of-radiance-ike.png")
              (Some ["https://fireemblemwiki.org/radiant-dawn-ike.jpg"])
              None None None)).
  reflexivity.
Defined.

(** ** Further properties of the field extractors *)

(** X8.  The three field extractors can run in any order, and running
    one of them a second time changes nothing. *)
Theorem field_extractors_commute (doc : document) (i : Item.CharacterItem) :
  parse_titles doc (parse_appearances doc i)
  = parse_appearances doc (parse_titles doc i)
  /\ parse_voice_actors doc (parse_appearances doc i)
     = parse_appearances doc (parse_voice_actors doc i)
  /\ parse_voice_actors doc (parse_titles doc i)
     = parse_titles doc (parse_voice_actors doc i)
  /\ parse_appearances doc (parse_appearances doc i) = parse_appearances doc i
  /\ parse_titles doc (parse_titles doc i) = parse_titles doc i
  /\ parse_voice_actors doc (parse_voice_actors doc i) = parse_voice_actors doc i.
Proof.
  rewrite !parse_voice_actors_spec. cbn zeta.
  unfold parse_appearances, parse_titles.
  destruct (Py.nonempty (getall_attr appearances_path "title" doc));
    destruct (Py.nonempty (collect_titles _ []));
    destruct (Py.nonempty (_ ++ _));
    repeat split.
Qed.

(** The fields of a returned item, read off the extractors. *)
Lemma returned_item_fields (MAX : nat) (doc : document)
  (item : Item.CharacterItem) (log : list call) :
  run (parse_character MAX doc) = (Return (Some item), log) ->
  exists name i,
    parse_images MAX doc (Item.set_name name Item.empty) = Return i
    /\ Item.otherImages item = Item.otherImages i
    /\ Item.appearances item
       = Item.appearances (parse_appearances doc Item.empty)
    /\ Item.titles item = Item.titles (parse_titles doc Item.empty)
    /\ Item.voiceActors item = Item.voiceActors (parse_voice_actors doc Item.empty).
Proof.
  intros H. apply parse_character_returns_inv in H.
  destruct H as [name [i [_ [_ [Himg [-> _]]]]]]. exists name, i.
  split; [exact Himg|].
  destruct (parse_images_frame MAX doc _ i Himg) as [_ [Ht [Ha Hv]]].
  cbn in Ht, Ha, Hv. split; [|split; [|split]].
  - destruct (parse_voice_actors_keeps doc (parse_titles doc (parse_appearances doc i)))
      as [_ [_ ->]].
    destruct (parse_titles_keeps doc (parse_appearances doc i)) as [_ [_ ->]].
    apply parse_appearances_keeps.
  - destruct (parse_voice_actors_frame doc (parse_titles doc (parse_appearances doc i)))
      as [_ ->].
    destruct (parse_titles_frame doc (parse_appearances doc i)) as [-> _].
    unfold parse_appearances. destruct (Py.nonempty _); [reflexivity|exact Ha].
  - destruct (parse_voice_actors_frame doc (parse_titles doc (parse_appearances doc i)))
      as [-> _].
    unfold parse_titles. destruct (Py.nonempty _); [reflexivity|].
    destruct (parse_appearances_frame doc i) as [-> _]. exact Ht.
  - rewrite !parse_voice_actors_spec. cbn zeta.
    destruct (Py.nonempty (_ ++ _)); [reflexivity|].
    destruct (parse_titles_frame doc (parse_appearances doc i)) as [_ ->].
    destruct (parse_appearances_frame doc i) as [_ ->]. exact Hv.
Qed.

Lemma filter_nonempty_has_no_empty (l : list string) :
  ~ In EmptyString (filter Str.nonempty l).
Proof. rewrite filter_In. intros [_ H]. discriminate. Qed.

(** X9.  No field of a returned item is present and empty: [titles],
    [appearances] and [voiceActors] are never set to an empty value, no
    title is the empty string, [voiceActors] has the keys [english] and
    [japanese] only, each with a non-empty list, and [otherImages] is not
    empty as long as [MAX_NUM_OTHER_IMAGES] is positive. *)
Theorem present_fields_are_not_empty
  (MAX : nat) (doc : document) (item : Item.CharacterItem) (log : list call) :
  run (parse_character MAX doc) = (Return (Some item), log) ->
  Item.titles item <> Some []
  /\ (forall titles, Item.titles item = Some titles -> ~ In EmptyString titles)
  /\ Item.appearances item <> Some []
  /\ Item.voiceActors item <> Some []
  /\ (forall voice_actors key names,
        Item.voiceActors item = Some voice_actors ->
        In (key, names) voice_actors ->
        (key = "english" \/ key = "japanese") /\ names <> [])
  /\ (0 < MAX -> Item.otherImages item <> Some []).
Proof.
  intros H. apply returned_item_fields in H.
  destruct H as [name [i [Himg [-> [-> [-> ->]]]]]].
  rewrite parse_titles_spec, parse_voice_actors_spec. cbn zeta.
  unfold parse_appearances.
  split; [|split; [|split; [|split; [|split]]]].
  - destruct (filter Str.nonempty _) as [|t ts]; cbn; discriminate.
  - intros titles.
    pose proof (filter_nonempty_has_no_empty
                  (map BeautifulSoup.get_text
                     (Py.or_else (nodes_where (cell_list_item "Title") doc)
                                 (nodes_where (cell_paragraph "Title") doc)))) as Hno.
    destruct (filter Str.nonempty _) as [|t ts]; cbn; [discriminate|].
    now intros [= <-].
  - destruct (getall_attr appearances_path "title" doc); cbn; discriminate.
  - destruct (flat_map text_of (nodes_where (annotated_link_text "English") doc));
      destruct (flat_map text_of (nodes_where (annotated_link_text "Japanese") doc));
      cbn; discriminate.
  - intros voice_actors key names.
    destruct (flat_map text_of (nodes_where (annotated_link_text "English") doc));
      destruct (flat_map text_of (nodes_where (annotated_link_text "Japanese") doc));
      cbn; [discriminate| | |]; intros [= <-]; cbn;
      intuition (try congruence);
      match goal with
      | H : (_, _) = (_, _) |- _ => injection H as <- <-
      end; (split; [tauto|discriminate]).
  - intros Hpos Ho.
    apply parse_images_inv in Himg.
    destruct Himg as [found [rest [_ [_ [_ [Hoth _]]]]]]. rewrite Ho in Hoth.
    destruct rest as [|r rest]; [discriminate|]. cbn [Py.nonempty] in Hoth.
    destruct MAX; [lia|]. discriminate.
Qed.

Lemma present_fields_are_not_empty_witness :
  let item :=
    Item.Build (Some "Jeralt") None None None None
      (Some [("english", ["Akio Otsuka"; "David Lodge"]);
             ("japanese", ["Akio Otsuka"])]) in
  Item.titles item <> Some []
  /\ (forall titles, Item.titles item = Some titles -> ~ In EmptyString titles)
  /\ Item.appearances item <> Some []
  /\ Item.voiceActors item <> Some []
  /\ (forall voice_actors key names,
        Item.voiceActors item = Some voice_actors ->
        In (key, names) voice_actors ->
        (key = "english" \/ key = "japanese") /\ names <> [])
  /\ (0 < 5 -> Item.otherImages item <> Some []).
Proof.
  intros item.
  apply (present_fields_are_not_empty 5 Examples.voices_page item
           [Call_parse_name; Call_parse_images; Call_parse_appearances;
            Call_parse_titles; Call_parse_voice_actors]).
  reflexivity.
Defined.

(** X10.  As soon as a data cell of a Title row holds a list item, the
    titles are the non-empty texts of those list items alone: the
    paragraphs of the cell are not looked at. *)
Theorem list_items_take_precedence (doc : document) (item : Item.CharacterItem) :
  nodes_where (cell_list_item "Title") doc <> [] ->
  let titles :=
    filter Str.nonempty
           (map BeautifulSoup.get_text (nodes_where (cell_list_item "Title") doc)) in
  parse_titles doc item
  = if Py.nonempty titles then Item.set_titles titles item else item.
Proof.
  intros Hli. cbn zeta. rewrite parse_titles_spec. unfold Py.or_else.
  destruct (nodes_where (cell_list_item "Title") doc); [contradiction|reflexivity].
Qed.

Lemma list_items_take_precedence_witness :
  nodes_where (cell_paragraph "Title") MoreExamples.mixed_titles_page
  = [Elem "p" [] [Text "Altean Prince"]]
  /\ parse_titles MoreExamples.mixed_titles_page Item.empty
     = Item.set_titles ["Hero-King"] Item.empty.
Proof.
  split; [reflexivity|].
  apply (list_items_take_precedence MoreExamples.mixed_titles_page Item.empty).
  discriminate.
Defined.

(** ** Further properties of link discovery *)

(** The parent of a position of a document, if it has one, is a position
    of the document. *)
Lemma locs_from_parent (n : node) :
  forall up after l,
    In l (locs_from up n after) ->
    l = (n, after) :: up
    \/ exists f u, l = f :: u /\ In u (locs_from up n after).
Proof.
  induction n as [s|tag attrs kids IH] using DomFacts.node_rect';
    intros up after l Hin.
  - simpl in Hin. destruct Hin as [<-|[]]. now left.
  - rewrite DomFacts.locs_from_eq in Hin |- *.
    destruct Hin as [<-|Hin]; [now left|]. right.
    cbn [children] in Hin |- *.
    remember ((Elem tag attrs kids, after) :: up) as me eqn:E. clear E.
    induction IH as [|k ks Hk _ IHks]; cbn [locs_kids] in Hin |- *; [contradiction|].
    apply in_app_or in Hin. destruct Hin as [Hin|Hin].
    + destruct (Hk me ks l Hin) as [->|[f [u [-> Hu]]]].
      * exists (k, ks), me. split; [reflexivity|now left].
      * exists f, u. split; [reflexivity|]. right. apply in_or_app. now left.
    + destruct (IHks Hin) as [f [u [-> Hu]]]. exists f, u. split; [reflexivity|].
      destruct Hu as [Hu|Hu]; [now left|]. right. apply in_or_app. now right.
Qed.

Lemma locs_ancestors (doc : document) (l : loc) :
  In l (locs doc) -> forall u, In u (ancestors l) -> In u (locs doc).
Proof.
  induction l as [|f l IH]; intros Hin u Hu; [contradiction|].
  destruct l as [|g l]; [contradiction|].
  cbn [ancestors] in Hu.
  assert (Hparent : In (g :: l) (locs doc)).
  { destruct (locs_from_parent doc [] [] _ Hin) as [H|[f' [u' [H Hu']]]];
      [discriminate|]. now injection H as _ <-. }
  destruct Hu as [<-|Hu]; [exact Hparent|]. now apply IH.
Qed.

Lemma inside_nowhere (P : loc -> bool) (doc : document) :
  (forall l, In l (locs doc) -> P l = false) ->
  forall l, In l (locs doc) -> inside P l = false.
Proof.
  intros HP l Hl. unfold inside.
  destruct (existsb P (ancestors l)) eqn:E; [|reflexivity].
  apply existsb_exists in E. destruct E as [u [Hu HPu]].
  rewrite (HP u (locs_ancestors doc l Hl u Hu)) in HPu. discriminate.
Qed.

Lemma nodes_where_nowhere (P : loc -> bool) (doc : document) :
  (forall l, In l (locs doc) -> P l = false) -> nodes_where P doc = [].
Proof.
  intros HP. unfold nodes_where.
  replace (filter P (locs doc)) with (@nil loc); [reflexivity|].
  symmetry. induction (locs doc) as [|l ls IH]; [reflexivity|].
  simpl. rewrite (HP l (or_introl eq_refl)). apply IH.
  intros l' Hl'. apply HP. now right.
Qed.

(** X11.  A page without an element [div] of id [mw-pages] yields no
    request at all, whatever anchors it holds. *)
Theorem parse_without_pages_container (doc : document) :
  existsb pages_div (locs doc) = false -> parse doc = [].
Proof.
  intros H.
  assert (Hpages : forall l, In l (locs doc) -> pages_div l = false).
  { intros l Hl. destruct (pages_div l) eqn:E; [|reflexivity].
    assert (Hex : existsb pages_div (locs doc) = true)
      by (apply existsb_exists; now exists l).
    congruence. }
  pose proof (inside_nowhere pages_div doc Hpages) as Hin_pages.
  assert (Hgroup : forall l, In l (locs doc) -> category_group l = false).
  { intros l Hl. unfold category_group. rewrite (Hin_pages l Hl). apply andb_false_r. }
  assert (Hitem : forall l, In l (locs doc) -> category_item l = false).
  { intros l Hl. unfold category_item.
    rewrite (inside_nowhere category_group doc Hgroup l Hl). apply andb_false_r. }
  assert (Hanchor : forall l, In l (locs doc) -> category_anchor l = false).
  { intros l Hl. unfold category_anchor.
    rewrite (inside_nowhere category_item doc Hitem l Hl). apply andb_false_r. }
  assert (Hnext : forall l, In l (locs doc) -> next_anchor l = false).
  { intros l Hl. unfold next_anchor. rewrite (Hin_pages l Hl). apply andb_false_r. }
  unfold parse.
  rewrite (XPathFacts.getall_attr_where character_links_path category_anchor
             "href" doc QueryFacts.sel_character_links).
  rewrite (XPathFacts.getall_attr_where next_page_path next_anchor
             "href" doc QueryFacts.sel_next_page).
  now rewrite (nodes_where_nowhere category_anchor doc Hanchor),
              (nodes_where_nowhere next_anchor doc Hnext).
Qed.

Lemma parse_without_pages_container_witness :
  parse MoreExamples.plain_page = [].
Proof.
  apply (parse_without_pages_container MoreExamples.plain_page). reflexivity.
Defined.

Lemma prefix_append (p s : string) : String.prefix p (String.append p s) = true.
Proof.
  induction p as [|c p IH]; simpl; [now destruct s|].
  destruct (ascii_dec c c) as [_|Hne]; [exact IH|now destruct Hne].
Qed.

(** X12.  Every URL that [parse] requests begins with the base URL, the
    link being appended to it as it is; the requests for detail pages
    come first, and a request for a listing page can only be the last. *)
Theorem requests_stay_under_the_base_url (doc : document) :
  (forall r, In r (parse doc) -> String.prefix BASE_URL (url r) = true)
  /\ (forall before r after,
        parse doc = before ++ r :: after ->
        request_callback r = Cb_parse ->
        after = []
        /\ forall d, In d before -> request_callback d = Cb_parse_character).
Proof.
  unfold parse.
  set (details := map _ (getall_attr character_links_path "href" doc)).
  set (next := match get (getall_attr next_page_path "href" doc) with
               | Some link =>
                   if Str.nonempty link
                   then [MkRequest (String.append BASE_URL link) Cb_parse]
                   else []
               | None => []
               end).
  assert (Hd : forall d, In d details ->
                         request_callback d = Cb_parse_character
                         /\ String.prefix BASE_URL (url d) = true).
  { intros d Hin. unfold details in Hin. apply in_map_iff in Hin.
    destruct Hin as [link [<- _]]. split; [reflexivity|apply prefix_append]. }
  assert (Hn : next = []
               \/ exists link, next = [MkRequest (String.append BASE_URL link) Cb_parse]).
  { unfold next. destruct (get _) as [link|]; [|now left].
    destruct (Str.nonempty link); [right; now exists link|now left]. }
  split.
  - intros r Hin. apply in_app_or in Hin. destruct Hin as [Hin|Hin].
    + now apply Hd.
    + destruct Hn as [Hn|[link Hn]]; rewrite Hn in Hin; [contradiction|].
      destruct Hin as [<-|[]]. apply prefix_append.
  - intros before r after Heq Hcb.
    assert (Hr : ~ In r details).
    { intros Hin. apply Hd in Hin. destruct Hin as [Hc _]. congruence. }
    destruct Hn as [Hn|[link Hn]]; rewrite Hn in Heq.
    + rewrite app_nil_r in Heq. exfalso. apply Hr. rewrite Heq.
      apply in_or_app. right. now left.
    + assert (Hlast : details ++ [MkRequest (String.append BASE_URL link) Cb_parse]
                      = (before ++ [r]) ++ after)
        by (rewrite <- app_assoc; exact Heq).
      destruct after as [|a after'] using rev_ind.
      * rewrite app_nil_r in Hlast. apply app_inj_tail in Hlast.
        destruct Hlast as [<- _]. split; [reflexivity|]. intros d Hin. now apply Hd.
      * exfalso. rewrite app_assoc in Hlast. apply app_inj_tail in Hlast.
        destruct Hlast as [Hdet _]. apply Hr. rewrite Hdet.
        apply in_or_app. left. apply in_or_app. right. now left.
Qed.

(** ** The image queries, read as shapes *)

Lemma image_path_without_quote (name : string) :
  Str.has_char Str.dquote name = false ->
  image_path name
  = Some [ Step Descendant (Tag "a") (PAttrEq "class" "image");
           Step Descendant (Tag "img")
                (POr (PContains (AttrVal "src") name)
                     (PContains (AttrVal "src") (Str.lower name))) ].
Proof.
  intros Hq. unfold image_path, literal. now rewrite lower_keeps_dquote, Hq.
Qed.

Lemma step_holds_named_img (name : string) (f : frame) :
  step_holds (Step Descendant (Tag "img")
                   (POr (PContains (AttrVal "src") name)
                        (PContains (AttrVal "src") (Str.lower name)))) f
  = ImageShape.named_img name (fst f).
Proof.
  unfold step_holds. cbn [step_test step_pred holds].
  now rewrite QueryFacts.node_test_tag.
Qed.

Lemma sel_image_anchor (l : loc) :
  sel [Step Descendant (Tag "a") (PAttrEq "class" "image")] l
  = ImageShape.image_anchor l.
Proof.
  rewrite XPathFacts.sel_desc_last by reflexivity. unfold ImageShape.image_anchor.
  rewrite <- QueryFacts.at_node_frame. destruct l as [|f up]; [reflexivity|].
  unfold step_holds. cbn [step_test step_pred holds].
  now rewrite QueryFacts.node_test_tag.
Qed.

Lemma sel_displayed_tab (l : loc) :
  sel [Step Descendant (Tag "div")
            (PAnd (PAttrEq "class" "tab_content")
                  (PAttrEq "style" "display:block;"))] l
  = ImageShape.displayed_tab l.
Proof.
  rewrite XPathFacts.sel_desc_last by reflexivity. unfold ImageShape.displayed_tab.
  rewrite <- QueryFacts.at_node_frame. destruct l as [|f up]; [reflexivity|].
  unfold step_holds. cbn [step_test step_pred holds].
  now rewrite QueryFacts.node_test_tag.
Qed.

(** X13.  For a name of ASCII characters without a double quote, the
    image query returns, in document order, the [src] of every [img] that
    lies inside an anchor of class [image] and whose [src] contains the
    name as it is or in lower case; the query of the displayed tab returns
    those of them whose anchor lies inside a [div] of class [tab_content]
    and style [display:block;]. *)
Theorem image_queries_select_named_images (doc : document) (name : string) :
  ImageShape.is_ascii name = true ->
  Str.has_char Str.dquote name = false ->
  xpath_attr (image_path name) "src" doc
  = Return (flat_map (attr_of "src")
                     (nodes_where (ImageShape.candidate_image name) doc))
  /\ xpath_attr (displayed_image_path name) "src" doc
     = Return (flat_map (attr_of "src")
                        (nodes_where (ImageShape.displayed_candidate name) doc)).
Proof.
  intros _ Hq. unfold displayed_image_path.
  rewrite (image_path_without_quote name Hq). cbn [xpath_attr].
  assert (Hcand : forall l,
             sel [Step Descendant (Tag "img")
                       (POr (PContains (AttrVal "src") name)
                            (PContains (AttrVal "src") (Str.lower name)));
                  Step Descendant (Tag "a") (PAttrEq "class" "image")] l
             = ImageShape.candidate_image name l).
  { intros l. rewrite XPathFacts.sel_desc by reflexivity.
    unfold ImageShape.candidate_image. f_equal.
    - rewrite <- QueryFacts.at_node_frame. destruct l as [|f up]; [reflexivity|].
      apply step_holds_named_img.
    - apply QueryFacts.inside_ext. exact sel_image_anchor. }
  split; f_equal.
  - apply XPathFacts.getall_attr_where. exact Hcand.
  - apply XPathFacts.getall_attr_where. intros l. cbn [rev app].
    rewrite XPathFacts.sel_desc by reflexivity.
    unfold ImageShape.displayed_candidate. f_equal.
    + rewrite <- QueryFacts.at_node_frame. destruct l as [|f up]; [reflexivity|].
      apply step_holds_named_img.
    + apply QueryFacts.inside_ext. intros u.
      rewrite XPathFacts.sel_desc by reflexivity.
      unfold ImageShape.image_anchor at 1. f_equal.
      * rewrite <- QueryFacts.at_node_frame. destruct u as [|f up]; [reflexivity|].
        unfold step_holds. cbn [step_test step_pred holds].
        now rewrite QueryFacts.node_test_tag.
      * apply QueryFacts.inside_ext. exact sel_displayed_tab.
Qed.

Lemma image_queries_select_named_images_witness :
  xpath_attr (image_path "Ike") "src" Examples.ike_page
  = Return ["/path-of-radiance-ike.png"; "/radiant-dawn-ike.jpg";
            "/fire-emblem-heroes-ike.jpg"]
  /\ xpath_attr (displayed_image_path "Ike") "src" Examples.ike_page
     = Return ["/path-of-radiance-ike.png"].
Proof.
  apply (image_queries_select_named_images Examples.ike_page "Ike"); reflexivity.
Defined.

(** ** The MongoDB pipeline *)

Section PipelineFacts.
Import MongoPipeline.
Context {World Client Database Collection Document E Item : Type}.
Variable pymongo : driver World Client Database Collection Document E.
Variable dict : Item -> Document.

(** X14.  A pipeline that [from_crawler] has made and [open_spider] has
    not opened cannot be used: [process_item] and [close_spider] raise
    [AttributeError] for the attribute that was never assigned, before
    any call of the driver, and leave the pipeline and the world as
    they were. *)
Theorem unopened_pipeline_raises_attribute_error
  (settings : list (string * string)) (env_mongo_uri : option string)
  (item : Item) (world : World) :
  let self := from_crawler (Client := Client) (Database := Database)
                           settings env_mongo_uri in
  process_item pymongo dict self item world
  = (Raised (AttributeError "database"), self, world)
  /\ close_spider pymongo self world
     = (Raised (AttributeError "client"), self, world).
Proof. split; reflexivity. Qed.

(** X15.  [process_item] hands the item on as it got it and never
    changes the pipeline object, whether the driver returns or raises. *)
Theorem process_item_passes_the_item_on
  (self self' : pipeline Client Database) (item : Item) (world world' : World)
  (r : result E Item) :
  process_item pymongo dict self item world = (r, self', world') ->
  self' = self /\ forall returned, r = Returned returned -> returned = item.
Proof.
  unfold process_item. destruct (database self) as [d|].
  - destruct (get_collection pymongo d (collection_name self) world)
      as [[collection|e] w1].
    + destruct (insert_one pymongo collection (dict item) w1) as [[u|e] w2];
        intros [= <- <- <-]; split; try reflexivity; intros x [=]; congruence.
    + intros [= <- <- <-]. split; [reflexivity|]. intros x [=].
  - intros [= <- <- <-]. split; [reflexivity|]. intros x [=].
Qed.

(** X16.  Once [open_spider] has returned, the pipeline holds a client
    and a database, its three names are those it was made with, and
    neither [process_item] nor [close_spider] raises [AttributeError]
    any more. *)
Theorem opened_pipeline_has_its_attributes
  (self self' : pipeline Client Database) (world world' : World) :
  open_spider pymongo self world = (Returned tt, self', world') ->
  (collection_name self' = collection_name self
   /\ database_name self' = database_name self
   /\ uri self' = uri self)
  /\ (exists c d, client self' = Some c /\ database self' = Some d)
  /\ (forall item w attribute,
        fst (fst (process_item pymongo dict self' item w))
        <> Raised (AttributeError attribute))
  /\ (forall w attribute,
        fst (fst (close_spider pymongo self' w))
        <> Raised (AttributeError attribute)).
Proof.
  unfold open_spider.
  destruct (mongo_client pymongo (uri self) world) as [[c|e] w1]; [|discriminate].
  cbn [database_name uri collection_name client database].
  destruct (get_database pymongo c (database_name self) w1) as [[d|e] w2];
    [|discriminate].
  intros [= <- <-]. cbn [database_name uri collection_name client database].
  split; [repeat split|]. split; [now exists c, d|]. split.
  - intros item w attribute. unfold process_item. cbn [database collection_name].
    destruct (get_collection pymongo d (collection_name self) w) as [[col|e] w3];
      [|cbn; discriminate].
    destruct (insert_one pymongo col (dict item) w3) as [[u|e] w4]; cbn; discriminate.
  - intros w attribute. unfold close_spider. cbn [client].
    destruct (close pymongo c w) as [[u|e] w3]; cbn; discriminate.
Qed.

End PipelineFacts.

Lemma process_item_passes_the_item_on_witness :
  let self := MongoPipeline.MkPipeline (Some "characters") (Some "fireEmblemData")
                (Some "mongodb://localhost") (Some (Some "mongodb://localhost"))
                (Some (Some "mongodb://localhost", Some "fireEmblemData")) in
  let item := Item.set_name "Ike" Item.empty in
  MongoPipeline.process_item (MongoPipeline.memory_driver Item.CharacterItem)
    (fun i => i) self item []
  = (MongoPipeline.Returned item, self,
     [((Some "mongodb://localhost", Some "fireEmblemData", Some "characters"), item)])
  /\ (self = self
      /\ forall returned,
           MongoPipeline.Returned (E := Empty_set) item
           = MongoPipeline.Returned returned -> returned = item).
Proof.
  intros self item. split; [reflexivity|].
  apply (process_item_passes_the_item_on
           (MongoPipeline.memory_driver Item.CharacterItem) (fun i => i)
           self self item []
           [((Some "mongodb://localhost", Some "fireEmblemData", Some "characters"),
             item)]).
  reflexivity.
Defined.

Lemma opened_pipeline_has_its_attributes_witness :
  let self := MongoPipeline.from_crawler
                [("MONGO_COLLECTION_NAME", "characters")] (Some "mongodb://localhost") in
  let self' := MongoPipeline.MkPipeline (Some "characters") (Some "fireEmblemData")
                 (Some "mongodb://localhost") (Some (Some "mongodb://localhost"))
                 (Some (Some "mongodb://localhost", Some "fireEmblemData")) in
  MongoPipeline.open_spider (MongoPipeline.memory_driver Item.CharacterItem) self []
  = (MongoPipeline.Returned tt, self', [])
  /\ MongoPipeline.collection_name self' = MongoPipeline.collection_name self.
Proof.
  intros self self'. split; [reflexivity|].
  destruct (opened_pipeline_has_its_attributes
              (MongoPipeline.memory_driver Item.CharacterItem)
              (fun i : Item.CharacterItem => i) self self' [] [] eq_refl)
    as [[H _] _].
  exact H.
Defined.

(** ** The candidate list of image selection *)

(** C6.  Whenever [__parse_images] returns, the candidate list
    [image_links] it has worked with is the list [found] of the sources
    of the selected image elements, in document order, without repeats
    and in first-seen order: it has no duplicates and the same elements
    as [found]; image elements with identical sources contribute one
    candidate; that candidate stands right after the distinct sources
    that come before its first occurrence; and the image fields of the
    item are made of this list, [primaryImage] from the displayed tab or
    the head of the list, [otherImages] from the list without it. *)
Theorem candidate_list_is_deduplicated_first_seen
  (MAX : nat) (doc : document) (name : string) (item : Item.CharacterItem) :
  parse_images MAX doc (Item.set_name name Item.empty) = Return item ->
  exists p displayed image_links rest,
    image_path name = Some p
    /\ xpath_attr (displayed_image_path name) "src" doc = Return displayed
    /\ image_links = first_seen [] (getall_attr p "src" doc)
    /\ NoDup image_links
    /\ (forall s, In s image_links <-> In s (getall_attr p "src" doc))
    /\ (forall pre s mid post,
          getall_attr p "src" doc = pre ++ s :: mid ++ s :: post ->
          image_links = first_seen [] (pre ++ s :: mid ++ post))
    /\ (forall pre s post,
          getall_attr p "src" doc = pre ++ s :: post -> ~ In s pre ->
          exists later,
            image_links = first_seen [] pre ++ s :: later /\ ~ In s later)
    /\ ((Item.primaryImage item = None /\ rest = image_links)
        \/ exists link,
             Item.primaryImage item = Some (String.append BASE_URL link)
             /\ Py.remove link image_links = Some rest
             /\ (get displayed = Some link
                 \/ (Py.truthy (get displayed) = false
                     /\ get image_links = Some link)))
    /\ Item.otherImages item
       = (if Py.nonempty rest
          then Some (map (String.append BASE_URL) (firstn MAX rest))
          else None).
Proof.
  unfold parse_images. cbn [Item.name Item.set_name].
  destruct (xpath_attr (displayed_image_path name) "src" doc) as [displayed|e] eqn:Hd;
    [|discriminate].
  destruct (image_path name) as [p|] eqn:Hp; [|discriminate]. cbn [xpath_attr].
  destruct (fromkeys_first_seen (getall_attr p "src" doc))
    as [_ [Hnd [Hin [Hrep Hpos]]]].
  rewrite !PyFacts.keys_fromkeys in *.
  set (found := getall_attr p "src" doc) in *.
  set (links := first_seen [] found) in *.
  intros H.
  assert (Hitem :
            exists rest,
              ((Item.primaryImage item = None /\ rest = links)
               \/ exists link,
                    Item.primaryImage item = Some (String.append BASE_URL link)
                    /\ Py.remove link links = Some rest
                    /\ (get displayed = Some link
                        \/ (Py.truthy (get displayed) = false
                            /\ get links = Some link)))
              /\ Item.otherImages item
                 = (if Py.nonempty rest
                    then Some (map (String.append BASE_URL) (firstn MAX rest))
                    else None)).
  { destruct (Py.truthy (get displayed)) eqn:Ht; cbn [negb andb] in H.
    - (* the displayed tab has an image *)
      destruct (get displayed) as [link|] eqn:Hg; [|discriminate].
      cbn [Py.truthy] in Ht. rewrite Ht in H.
      destruct (Py.remove link links) as [rest|] eqn:Hrm; [|discriminate].
      injection H as <-. exists rest. split.
      + right. exists link. split; [now destruct (Py.nonempty rest)|]. tauto.
      + now destruct (Py.nonempty rest).
    - destruct (Py.nonempty links) eqn:Hne.
      + (* no displayed image: the head of the list *)
        destruct (get links) as [link|] eqn:Hg.
        * destruct (Str.nonempty link) eqn:Hl.
          -- destruct (Py.remove link links) as [rest|] eqn:Hrm; [|discriminate].
             injection H as <-. exists rest. split.
             ++ right. exists link. split; [now destruct (Py.nonempty rest)|]. tauto.
             ++ now destruct (Py.nonempty rest).
          -- injection H as <-. exists links. rewrite Hne. split; [|reflexivity].
             left. split; reflexivity.
        * injection H as <-. exists links. rewrite Hne. split; [|reflexivity].
          left. split; reflexivity.
      + (* no candidate at all *)
        assert (Hitem : item = Item.set_name name Item.empty).
        { destruct (get displayed) as [link|].
          - cbn [Py.truthy] in Ht. rewrite Ht, Hne in H. now injection H.
          - rewrite Hne in H. now injection H. }
        subst item. exists links. rewrite Hne. split; [|reflexivity].
        left. split; reflexivity. }
  destruct Hitem as [rest [Hprim Hoth]].
  exists p, displayed, links, rest.
  split; [reflexivity|]. split; [reflexivity|]. split; [reflexivity|].
  split; [exact Hnd|]. split; [exact Hin|]. split.
  { intros pre s mid post Heq. rewrite <- PyFacts.keys_fromkeys.
    exact (Hrep pre s mid post Heq). }
  split; [|split; assumption].
  intros pre s post Heq Hnot. rewrite <- PyFacts.keys_fromkeys.
  exact (Hpos pre s post Heq Hnot).
Qed.

Lemma candidate_list_is_deduplicated_first_seen_witness :
  exists p displayed image_links rest,
    image_path "Reinhardt" = Some p
    /\ xpath_attr (displayed_image_path "Reinhardt") "src" Examples.reinhardt_page
       = Return displayed
    /\ image_links = first_seen [] (getall_attr p "src" Examples.reinhardt_page)
    /\ NoDup image_links
    /\ (forall s,
          In s image_links <-> In s (getall_attr p "src" Examples.reinhardt_page))
    /\ (forall pre s mid post,
          getall_attr p "src" Examples.reinhardt_page = pre ++ s :: mid ++ s :: post ->
          image_links = first_seen [] (pre ++ s :: mid ++ post))
    /\ (forall pre s post,
          getall_attr p "src" Examples.reinhardt_page = pre ++ s :: post ->
          ~ In s pre ->
          exists later,
            image_links = first_seen [] pre ++ s :: later /\ ~ In s later)
    /\ ((Some "https://fireemblemwiki.org/thracia776-reinhardt.jpg" = None
         /\ rest = image_links)
        \/ exists link,
             Some "https://fireemblemwiki.org/thracia776-reinhardt.jpg"
             = Some (String.append BASE_URL link)
             /\ Py.remove link image_links = Some rest
             /\ (get displayed = Some link
                 \/ (Py.truthy (get displayed) = false
                     /\ get image_links = Some link)))
    /\ @None (list string)
       = (if Py.nonempty rest
          then Some (map (String.append BASE_URL) (firstn 2 rest))
          else None).
Proof.
  apply (candidate_list_is_deduplicated_first_seen 2 Examples.reinhardt_page
           "Reinhardt"
           (Item.Build (Some "Reinhardt")
              (Some "https://fireemblemwiki.org/thracia776-reinhardt.jpg")
              None None None None)).
  reflexivity.
Defined.
